(** * Telemetry collector and health analyzer: model and properties

    Shallow embedding of [infra/collector/collector.py] and
    [infra/predictor/predictor.py].

    - Python [float] (and numpy [float64]) is the primitive binary64 type
      [float]; its arithmetic and comparisons are the IEEE-754 ones, so a
      [NaN] compares false with everything.
    - Python [int] is [Z].
    - [None] is the [None] of an [option].
    - A raised exception is the [Raise] of the [result] monad; a
      [try ... except Exception] is a [match] on the result.
    - The time-series store is a list of points, oldest first; the operating
      system, the network and the store's availability are explicit inputs of
      the functions that consult them. *)

From Stdlib Require Import Floats ZArith List Bool String Lia Permutation.
From Stdlib Require Uint63.
Import ListNotations.

Set Warnings "-inexact-float".

(** ** Python runtime *)

Module Py.

Inductive exn :=
| TypeError
| KeyError
| ZeroDivisionError
| OverflowError
| IndexError
| OSError
| ApiException.

Inductive result (A : Type) :=
| Ok (a : A)
| Raise (e : exn).
Arguments Ok {A} a.
Arguments Raise {A} e.

Definition bind {A B} (r : result A) (k : A -> result B) : result B :=
  match r with
  | Ok a => k a
  | Raise e => Raise e
  end.

(** [int / int]: the correctly rounded (nearest, ties to even) quotient;
    [ZeroDivisionError] on a zero divisor, [OverflowError] when the
    quotient is too large for a float. *)
Definition truediv (a b : Z) : result float :=
  match b, a with
  | Z0, _ => Raise ZeroDivisionError
  | _, Z0 => Ok (if b <? 0 then neg_zero else zero)%Z
  | _, _ =>
      let '(q, e, l) := SFdiv_core_binary prec emax (Z.abs a) 0 (Z.abs b) 0 in
      match binary_round_aux prec emax (xorb (a <? 0) (b <? 0))%Z q e l with
      | S754_infinity _ => Raise OverflowError
      | sf => Ok (SF2Prim sf)
      end
  end.

(** The float of a small natural number, as in [float(n)]. *)
Definition of_int (n : Z) : float := of_uint63 (Uint63.of_Z n).

(** [float(x)] on the value of a dict entry that holds a float or [None]. *)
Definition float_ (x : option float) : result float :=
  match x with
  | Some f => Ok f
  | None => Raise TypeError
  end.

(** [range(start, stop)] and [x in range(start, stop)]. *)
Record range := { start : Z; stop : Z }.

Definition contains (r : range) (x : Z) : bool :=
  ((start r <=? x) && (x <? stop r))%Z.

End Py.

Import Py.

Declare Scope py_scope.
Delimit Scope py_scope with py.
Notation "x <- c ;; k" := (Py.bind c (fun x => k))
  (at level 61, c at next level, right associativity) : py_scope.
Open Scope py_scope.

(** ** collector.py *)

Module Collector.

(** What [psutil.net_io_counters()] reads. *)
Module psutil.
Record snetio := {
  bytes_sent : Z;
  bytes_recv : Z;
  packets_sent : Z;
  packets_recv : Z;
  errin : Z;
  errout : Z
}.
End psutil.

(** The stats dict.  [get_network_stats] builds it without the
    ["latency"] key ([latency = None]); [main] then stores the value of
    [get_latency()] under that key, which is a float or Python's [None]. *)
Record Stats := {
  download_speed : float;
  upload_speed : float;
  packets_sent : Z;
  packets_recv : Z;
  errors_in : Z;
  errors_out : Z;
  latency : option (option float)
}.

Definition setitem_latency (d : Stats) (v : option float) : Stats :=
  {| download_speed := download_speed d;
     upload_speed := upload_speed d;
     packets_sent := packets_sent d;
     packets_recv := packets_recv d;
     errors_in := errors_in d;
     errors_out := errors_out d;
     latency := Some v |}.

(** [stats["latency"]]. *)
Definition getitem_latency (d : Stats) : result (option float) :=
  match latency d with
  | Some v => Ok v
  | None => Raise KeyError
  end.

(** A point of the [network_metrics] series. *)
Module Point.
Record t := {
  download_speed : float;
  upload_speed : float;
  packets_sent : Z;
  packets_recv : Z;
  errors_in : Z;
  errors_out : Z;
  latency : float;
  time : Z
}.
End Point.

(** The outcome of the TCP connect of [get_latency]: the two readings of
    [time.time()] around a successful connect, or the exception raised. *)
Inductive probe :=
| Connected (start_time end_time : float)
| ConnectFailed (e : exn).

Definition get_latency (p : probe) : option float :=
  match p with
  | Connected start_time end_time => Some ((end_time - start_time) * 1000)%float
  | ConnectFailed _ => None
  end.

(** [get_network_stats], on the outcomes of the two counter reads that
    are one second apart. *)
Definition get_network_stats (first second : result psutil.snetio)
  : option Stats :=
  match
    (c <- first ;;
     let bytes_sent := psutil.bytes_sent c in
     let bytes_recv := psutil.bytes_recv c in
     c' <- second ;;
     let new_bytes_sent := psutil.bytes_sent c' in
     let new_bytes_recv := psutil.bytes_recv c' in
     upload_speed <- truediv ((new_bytes_sent - bytes_sent) * 8) 1000000 ;;
     download_speed <- truediv ((new_bytes_recv - bytes_recv) * 8) 1000000 ;;
     Ok {| download_speed := download_speed;
           upload_speed := upload_speed;
           packets_sent := psutil.packets_sent c';
           packets_recv := psutil.packets_recv c';
           errors_in := psutil.errin c';
           errors_out := psutil.errout c';
           latency := None |})
  with
  | Ok d => Some d
  | Raise _ => None
  end.

(** How the store answers during one call of [write_to_influxdb]. *)
Record InfluxDBClient := {
  write_api : result unit;
  write : result unit
}.

Definition invalid (stats : Stats) : bool :=
  (download_speed stats <? 0)%float || (upload_speed stats <? 0)%float
  || (packets_sent stats <? 0)%Z || (packets_recv stats <? 0)%Z.

(** [write_to_influxdb]: the series after the call.  [now] is the value of
    [datetime.now()]. *)
Definition write_to_influxdb (client : InfluxDBClient) (now : Z)
    (stats : Stats) (series : list Point.t) : list Point.t :=
  match
    (_ <- write_api client ;;
     if invalid stats then Ok series
     else
       l <- getitem_latency stats ;;
       l <- float_ l ;;
       let point :=
         {| Point.download_speed := download_speed stats;
            Point.upload_speed := upload_speed stats;
            Point.packets_sent := packets_sent stats;
            Point.packets_recv := packets_recv stats;
            Point.errors_in := errors_in stats;
            Point.errors_out := errors_out stats;
            Point.latency := l;
            Point.time := now |} in
       _ <- write client ;;
       Ok (series ++ [point]))
  with
  | Ok series' => series'
  | Raise _ => series
  end.

(** One pass through the body of the [while True] of [main]. *)
Record tick := {
  first : result psutil.snetio;
  second : result psutil.snetio;
  connect : probe;
  client : InfluxDBClient;
  now : Z
}.

(** [network_stats['latency'] = get_latency()]. *)
Definition store_latency (network_stats : option Stats) (v : option float)
  : result Stats :=
  match network_stats with
  | Some d => Ok (setitem_latency d v)
  | None => Raise TypeError
  end.

(** Truth value of a dict: it has at least one key. *)
Definition truthy (d : Stats) : bool := true.

Definition iteration (t : tick) (series : list Point.t)
  : result (list Point.t) :=
  let network_stats := get_network_stats (first t) (second t) in
  network_stats <- store_latency network_stats (get_latency (connect t)) ;;
  Ok (if truthy network_stats
      then write_to_influxdb (client t) (now t) network_stats series
      else series).

(** How [main] stands after the ticks it was given: still in its loop, or
    out of it through the handler of the exception [e].  The interrupt
    that ends a run from outside is not among the ticks. *)
Inductive status :=
| Looping
| Exited (e : exn).

Fixpoint main (ticks : list tick) (series : list Point.t)
  : list Point.t * status :=
  match ticks with
  | [] => (series, Looping)
  | t :: ticks' =>
      match iteration t series with
      | Ok series' => main ticks' series'
      | Raise e => (series, Exited e)
      end
  end.

End Collector.

(** ** predictor.py *)

Module Predictor.

(** A row of the frame that [query_data_frame] returns for the pivoted
    [network_metrics] query: the columns the monitor reads.  [_time] is in
    seconds since the epoch; a missing value of a column is [nan]. *)
Module Row.
Record t := {
  _time : Z;
  upload_speed : float;
  latency : float
}.
End Row.

Definition DataFrame := list Row.t.

Definition empty (df : DataFrame) : bool :=
  match df with
  | [] => true
  | _ :: _ => false
  end.

(** numpy's sum of a [float64] array, which pandas calls for the
    reductions of a column: [DOUBLE_pairwise_sum] of numpy's
    [loops_utils.h], applied by [np.add.reduce] to the whole array. *)
Module np.

Definition PW_BLOCKSIZE : nat := 128.

(** The block of at most [PW_BLOCKSIZE] values: the eight partial sums
    [r[0]] to [r[7]] take the values of every whole group of eight in
    turn; then [res = ((r[0] + r[1]) + (r[2] + r[3])) + ((r[4] + r[5])
    + (r[6] + r[7]))], and the values after the last whole group are
    added to [res] one by one. *)
Fixpoint unrolled (r0 r1 r2 r3 r4 r5 r6 r7 : float) (a : list float)
    : float :=
  match a with
  | x0 :: x1 :: x2 :: x3 :: x4 :: x5 :: x6 :: x7 :: a' =>
      unrolled (r0 + x0)%float (r1 + x1)%float (r2 + x2)%float
               (r3 + x3)%float (r4 + x4)%float (r5 + x5)%float
               (r6 + x6)%float (r7 + x7)%float a'
  | _ =>
      fold_left PrimFloat.add a
        (((r0 + r1) + (r2 + r3)) + ((r4 + r5) + (r6 + r7)))%float
  end.

(** [pairwise_sum(a, n, stride)].  [depth] bounds the nesting of the
    calls; the length of the array is always enough. *)
Fixpoint pairwise_sum (depth : nat) (a : list float) : float :=
  let n := List.length a in
  if (n <? 8)%nat then fold_left PrimFloat.add a neg_zero
  else if (n <=? PW_BLOCKSIZE)%nat then
    match a with
    | x0 :: x1 :: x2 :: x3 :: x4 :: x5 :: x6 :: x7 :: a' =>
        unrolled x0 x1 x2 x3 x4 x5 x6 x7 a'
    | _ => fold_left PrimFloat.add a neg_zero
    end
  else
    match depth with
    | S depth' =>
        let n2 := (n / 2)%nat in
        let n2 := (n2 - n2 mod 8)%nat in
        (pairwise_sum depth' (firstn n2 a)
         + pairwise_sum depth' (skipn n2 a))%float
    | O => nan
    end.

(** [a.sum()]: the reduction starts from [-0.0]. *)
Definition sum (a : list float) : float :=
  (neg_zero + pairwise_sum (List.length a) a)%float.

(** [np.putmask(values, mask, v)] *)
Fixpoint putmask (values : list float) (mask : list bool) (v : float)
    : list float :=
  match values, mask with
  | x :: values', m :: mask' =>
      (if m then v else x) :: putmask values' mask' v
  | _, _ => values
  end.

End np.

(** The operations of a pandas column that the monitor calls, as
    [pandas.core.nanops] carries them out on a [float64] column
    ([nanmean], [nanvar] and [nanstd] with [skipna] and [ddof = 1]). *)
Module Series.

(** [s.iloc[-1]] *)
Fixpoint iloc_last {A} (s : list A) : result A :=
  match s with
  | [] => Raise IndexError
  | [x] => Ok x
  | _ :: s' => iloc_last s'
  end.

Definition notna (x : float) : bool := negb (is_nan x).

Definition dropna (s : list float) : list float := filter notna s.

(** [mask = isna(values)] *)
Definition isna (s : list float) : list bool := map is_nan s.

(** The number of values that are not missing. *)
Definition count (s : list float) : Z := Z.of_nat (List.length (dropna s)).

(** [s.mean()]: the missing values are replaced by 0 and the sum is
    divided by the number of the others; [nan] when there is none. *)
Definition mean (s : list float) : float :=
  let values := np.putmask s (isna s) 0 in
  if (count s =? 0)%Z then nan
  else (np.sum values / of_int (count s))%float.

(** [s.std()]: the square root of [nanvar], which takes the sum of
    [(avg - values) ** 2], with 0 in the place of a missing value,
    over [count - ddof]; [nan] when at most one value is not
    missing. *)
Definition std (s : list float) : float :=
  let mask := isna s in
  let values := np.putmask s mask 0 in
  if (count s <=? 1)%Z then nan
  else
    let avg := (np.sum values / of_int (count s))%float in
    let sqr := map (fun x => ((avg - x) * (avg - x))%float) values in
    let sqr := np.putmask sqr mask 0 in
    sqrt (np.sum sqr / of_int (count s - 1)).

End Series.

(** The time of day of a timestamp: [pd.to_datetime(t).hour]. *)
Definition hour (t : Z) : Z := ((t / 3600) mod 24)%Z.

(** [self.thresholds].  The latency cutoffs are written as integers in
    the source; compared with a float they are converted to it. *)
Record Cutoffs := { optimal : float; warning : float; critical : float }.
Record Periods := { peak : Cutoffs; off_peak : Cutoffs }.
Record Thresholds := {
  peak_hours : Py.range;
  upload : Periods;
  latency : Periods
}.

Definition thresholds : Thresholds :=
  {| peak_hours := {| start := 9; stop := 18 |};
     upload :=
       {| peak := {| optimal := 0.75; warning := 0.50; critical := 0.25 |};
          off_peak := {| optimal := 0.85; warning := 0.60; critical := 0.35 |} |};
     latency :=
       {| peak := {| optimal := 30; warning := 50; critical := 100 |};
          off_peak := {| optimal := 20; warning := 40; critical := 80 |} |} |}.

Definition get_recent_data (query : result DataFrame) : option DataFrame :=
  match query with
  | Ok result => if empty result then None else Some result
  | Raise _ => None
  end.

Record MetricStats := {
  current : float;
  avg_5min : float;
  std_5min : float
}.

Module Stats.
Record t := {
  upload_speed : MetricStats;
  latency : MetricStats
}.
End Stats.

Definition calculate_averages (data : DataFrame) : result Stats.t :=
  let upload_speed := map Row.upload_speed data in
  let latency := map Row.latency data in
  cu <- Series.iloc_last upload_speed ;;
  cl <- Series.iloc_last latency ;;
  Ok {| Stats.upload_speed :=
          {| current := cu;
             avg_5min := Series.mean upload_speed;
             std_5min := Series.std upload_speed |};
        Stats.latency :=
          {| current := cl;
             avg_5min := Series.mean latency;
             std_5min := Series.std latency |} |}.

Definition gtb (x y : float) : bool := (y <? x)%float.
Definition geb (x y : float) : bool := (y <=? x)%float.

(** The test of the loop body: [abs(current - mean) > 2 * std]. *)
Definition deviates (m : MetricStats) : bool :=
  gtb (abs (current m - avg_5min m)) (2 * std_5min m).

(** [for metric in ...: if ...: return True] and then [return False]. *)
Fixpoint for_metrics (metrics : list MetricStats) : bool :=
  match metrics with
  | [] => false
  | m :: metrics' => if deviates m then true else for_metrics metrics'
  end.

Definition detect_simple_anomalies (stats : Stats.t) : bool :=
  for_metrics [Stats.upload_speed stats; Stats.latency stats].

Record HealthAnalysis := {
  status : string;
  health_score : float;
  is_peak_hour : bool
}.

Definition analyze_server_health (self : Thresholds)
    (current_data : DataFrame) (stats : Stats.t) : result HealthAnalysis :=
  t <- Series.iloc_last (map Row._time current_data) ;;
  let current_hour := hour t in
  let is_peak := Py.contains (peak_hours self) current_hour in
  let period := if is_peak then peak else off_peak in
  let thresholds_upload := period (upload self) in
  let thresholds_latency := period (latency self) in
  let health_score := 0.0%float in
  let current_upload := current (Stats.upload_speed stats) in
  let current_latency := current (Stats.latency stats) in
  let health_score :=
    if geb current_upload (optimal thresholds_upload)
    then (health_score + 0.4)%float
    else if geb current_upload (warning thresholds_upload)
    then (health_score + 0.2)%float
    else health_score in
  let health_score :=
    if (current_latency <=? optimal thresholds_latency)%float
    then (health_score + 0.6)%float
    else if (current_latency <=? warning thresholds_latency)%float
    then (health_score + 0.3)%float
    else health_score in
  let status :=
    if geb health_score 0.8 then "optimal"%string
    else if geb health_score 0.5 then "good"%string
    else if geb health_score 0.3 then "warning"%string
    else "critical"%string in
  Ok {| status := status;
        health_score := health_score;
        is_peak_hour := is_peak |}.

(** A point of the [server_analysis] series. *)
Module Point.
Record t := {
  current_upload : float;
  current_latency : float;
  avg_upload_5min : float;
  avg_latency_5min : float;
  health_status : string;
  health_score : float;
  is_anomaly : Z;
  is_peak_hour : Z
}.
End Point.

(** [int(b)] *)
Definition int_ (b : bool) : Z := if b then 1%Z else 0%Z.

(** What the store does during one call of [monitor_and_analyze]: the
    answer to the range query and to the write. *)
Record tick := {
  query : result DataFrame;
  write : result unit
}.

(** [monitor_and_analyze]: the [server_analysis] series after the call. *)
Definition monitor_and_analyze (self : Thresholds) (t : tick)
    (series : list Point.t) : list Point.t :=
  match
    (match get_recent_data (query t) with
     | None => Ok series
     | Some recent_data =>
         if empty recent_data then Ok series
         else
           stats <- calculate_averages recent_data ;;
           let is_anomaly := detect_simple_anomalies stats in
           health_analysis <- analyze_server_health self recent_data stats ;;
           let point :=
             {| Point.current_upload := current (Stats.upload_speed stats);
                Point.current_latency := current (Stats.latency stats);
                Point.avg_upload_5min := avg_5min (Stats.upload_speed stats);
                Point.avg_latency_5min := avg_5min (Stats.latency stats);
                Point.health_status := status health_analysis;
                Point.health_score := health_score health_analysis;
                Point.is_anomaly := int_ is_anomaly;
                Point.is_peak_hour := int_ (is_peak_hour health_analysis) |} in
           _ <- write t ;;
           Ok (series ++ [point])
     end)
  with
  | Ok series' => series'
  | Raise _ => series
  end.

(** The [while True] of [main] over the ticks it is given. *)
Fixpoint main (self : Thresholds) (ticks : list tick)
    (series : list Point.t) : list Point.t :=
  match ticks with
  | [] => series
  | t :: ticks' => main self ticks' (monitor_and_analyze self t series)
  end.

End Predictor.

(** * Vocabulary of the statements and sample inputs *)

(** The rate of the sampler in the words of the specification. *)
Module RateSpec.

(** The time between the two counter reads, in seconds: the sampler
    sleeps [time.sleep(1)] between them. *)
Definition interval : Z := 1.

(** [delta * 8 / 1_000_000 / interval] *)
Definition mbps (delta interval : Z) : result float :=
  x <- truediv (delta * 8) 1000000 ;;
  if (interval =? 0)%Z then Raise ZeroDivisionError
  else Ok (x / of_int interval)%float.

End RateSpec.

Module CollectorSamples.

Import Collector.

(** A persisted point whose two rates are not negative. *)
Definition nonnegative_rates (p : Point.t) : Prop :=
  (Point.download_speed p <? 0)%float = false /\
  (Point.upload_speed p <? 0)%float = false.

Definition store_up : InfluxDBClient :=
  {| write_api := Ok tt; write := Ok tt |}.

Definition counters (bytes_sent bytes_recv : Z) : psutil.snetio :=
  {| psutil.bytes_sent := bytes_sent; psutil.bytes_recv := bytes_recv;
     psutil.packets_sent := 4000; psutil.packets_recv := 7000;
     psutil.errin := 0; psutil.errout := 0 |}.

(** The two reads of a counter that was reset in between, a probe that
    answered after 12 ms and a store that accepts the write. *)
Definition reset_tick : tick :=
  {| first := Ok (counters 5000000 9000000);
     second := Ok (counters 1000 2000);
     connect := Connected 100 100.012;
     client := store_up;
     now := 1700000000 |}.

(** A tick whose two reads and whose probe succeed. *)
Definition good_tick : tick :=
  {| first := Ok (counters 5000000 9000000);
     second := Ok (counters 5250000 9750000);
     connect := Connected 100 100.012;
     client := store_up;
     now := 1700000005 |}.

(** A tick whose first counter read raises. *)
Definition sampler_failed_tick : tick :=
  {| first := Raise OSError;
     second := Ok (counters 5250000 9750000);
     connect := Connected 100 100.012;
     client := store_up;
     now := 1700000000 |}.

(** A tick whose reads succeed and whose probe times out. *)
Definition probe_failed_tick : tick :=
  {| first := Ok (counters 5000000 9000000);
     second := Ok (counters 5250000 9750000);
     connect := ConnectFailed OSError;
     client := store_up;
     now := 1700000000 |}.

(** A stats record with negative error totals and a negative latency. *)
Definition negative_errors_stats : Stats :=
  {| download_speed := 6;
     upload_speed := 2;
     packets_sent := 4000;
     packets_recv := 7000;
     errors_in := -3;
     errors_out := -7;
     latency := Some (Some (-12.5)%float) |}.

End CollectorSamples.

(** The scoring rule in the words of the specification. *)
Module HealthSpec.

Import Predictor.

Definition upload_points (c : Cutoffs) (upload : float) : float :=
  if geb upload (optimal c) then 0.4%float
  else if geb upload (warning c) then 0.2%float
  else 0.0%float.

Definition latency_points (c : Cutoffs) (latency : float) : float :=
  if (latency <=? optimal c)%float then 0.6%float
  else if (latency <=? warning c)%float then 0.3%float
  else 0.0%float.

Definition status_of_score (score : float) : string :=
  if geb score 0.8 then "optimal"%string
  else if geb score 0.5 then "good"%string
  else if geb score 0.3 then "warning"%string
  else "critical"%string.

(** The row of the threshold table for a period. *)
Definition cutoffs_for (self : Thresholds) (is_peak : bool) : Cutoffs * Cutoffs :=
  if is_peak then (peak (upload self), peak (latency self))
  else (off_peak (upload self), off_peak (latency self)).

Definition score (self : Thresholds) (is_peak : bool)
    (upload latency : float) : float :=
  (upload_points (fst (cutoffs_for self is_peak)) upload
   + latency_points (snd (cutoffs_for self is_peak)) latency)%float.

(** Hours 9 to 17. *)
Definition in_peak_hours (h : Z) : bool := ((9 <=? h) && (h <=? 17))%Z.

End HealthSpec.

(** The rolling statistics in the words of the specification. *)
Module StatsSpec.

Import Predictor.

Definition non_missing (values : list float) : list float :=
  filter (fun x => negb (is_nan x)) values.

Definition N (values : list float) : Z := Z.of_nat (List.length values).

(** [adds_up values t]: adding the values, each of them once, gives [t].
    The addition of floats is not associative and the specification
    names no order, so the additions may be grouped and ordered in any
    way. *)
Inductive adds_up : list float -> float -> Prop :=
| one x : adds_up [x] x
| both l1 l2 t1 t2 :
    adds_up l1 t1 -> adds_up l2 t2 -> adds_up (l1 ++ l2) (t1 + t2)
| reordered l l' t : Permutation l l' -> adds_up l t -> adds_up l' t.

(** The same number: the same float, or two zeros, whatever their
    signs. *)
Definition same_number (x y : float) : Prop :=
  x = y \/ ((x =? 0)%float = true /\ (y =? 0)%float = true).

Definition total (values : list float) (t : float) : Prop :=
  exists t', adds_up values t' /\ same_number t t'.

Definition arithmetic_mean (values : list float) (mean : float) : Prop :=
  exists t, total values t /\ mean = (t / of_int (N values))%float.

Definition squared_deviation (mean x : float) : float :=
  ((x - mean) * (x - mean))%float.

(** The sample standard deviation, with the divisor [N - 1]. *)
Definition sample_std (values : list float) (std : float) : Prop :=
  exists mean t,
    arithmetic_mean values mean /\
    total (map (squared_deviation mean) values) t /\
    std = sqrt (t / of_int (N values - 1)).

(** What the statistics of a metric are to its values that are not
    missing: the mean, when there is a value; the sample standard
    deviation, when there are two; not a number otherwise. *)
Definition describes (values : list float) (m : MetricStats) : Prop :=
  (if (N values =? 0)%Z then avg_5min m = nan
   else arithmetic_mean values (avg_5min m)) /\
  (if (N values <=? 1)%Z then std_5min m = nan
   else sample_std values (std_5min m)).

(** The mean with the values added one after the other to 0, for
    comparison. *)
Definition left_to_right_mean (values : list float) : float :=
  (fold_left PrimFloat.add values 0 / of_int (N values))%float.

(** A window in the order of its timestamps. *)
Fixpoint chronological (window : DataFrame) : Prop :=
  match window with
  | [] => True
  | r :: window' =>
      Forall (fun r' => (Row._time r <= Row._time r')%Z) window' /\
      chronological window'
  end.

End StatsSpec.

Module PredictorSamples.

Import Predictor.

Definition record (t : Z) (upload latency : float) : Row.t :=
  {| Row._time := t; Row.upload_speed := upload; Row.latency := latency |}.

(** Seconds since midnight of a time of day. *)
Definition at_ (h m s : Z) : Z := (h * 3600 + m * 60 + s)%Z.

(** Stats with the given current values. *)
Definition currently (upload latency : float) : Stats.t :=
  {| Stats.upload_speed :=
       {| current := upload; avg_5min := upload; std_5min := 0 |};
     Stats.latency :=
       {| current := latency; avg_5min := latency; std_5min := 0 |} |}.

Definition store_up (window : DataFrame) : tick :=
  {| query := Ok window; write := Ok tt |}.

End PredictorSamples.

(** What the facts about rounding speak of. *)
Module RoundingSpec.

(** The amount by which a mantissa is shifted to the right before it is
    rounded to the format. *)
Definition excess (m e : Z) : Z :=
  Z.max (SpecFloat.fexp prec emax (Zdigits2 m + e) - e) 0.

(** Neither zero nor not-a-number. *)
Definition nonzero (x : spec_float) : bool :=
  match x with
  | S754_finite _ _ _ | S754_infinity _ => true
  | _ => false
  end.

Definition sign_is (s : bool) (x : spec_float) : bool :=
  match x with
  | S754_zero s' | S754_infinity s' | S754_finite s' _ _ => Bool.eqb s s'
  | S754_nan => false
  end.

(** Equal up to the sign. *)
Definition same_magnitude (x y : spec_float) : Prop :=
  match x, y with
  | S754_zero _, S754_zero _ => True
  | S754_infinity _, S754_infinity _ => True
  | S754_nan, S754_nan => True
  | S754_finite _ m e, S754_finite _ m' e' => m = m' /\ e = e'
  | _, _ => False
  end.

End RoundingSpec.

(** More vocabulary for the facts about binary64. *)
Module SignSpec.

(** Not below zero: not a number, a zero of either sign, or positive. *)
Definition not_negative (x : spec_float) : bool :=
  match x with
  | S754_nan | S754_zero _ => true
  | S754_infinity s | S754_finite s _ _ => negb s
  end.

(** At or above zero: a zero of either sign, or positive. *)
Definition at_least_zero (x : spec_float) : bool :=
  match x with
  | S754_nan => false
  | S754_zero _ => true
  | S754_infinity s | S754_finite s _ _ => negb s
  end.

(** Zero or finite. *)
Definition finite (x : spec_float) : bool :=
  match x with
  | S754_zero _ | S754_finite _ _ _ => true
  | _ => false
  end.

End SignSpec.

(** What the statements about runs of the collector speak of. *)
Module CollectorRuns.

Import Collector.

(** The sampler returned a record in this tick. *)
Definition sampled (t : tick) : bool :=
  match get_network_stats (first t) (second t) with
  | Some _ => true
  | None => false
  end.

(** The store takes the write during this call. *)
Definition store_accepts (c : InfluxDBClient) : Prop :=
  write_api c = Ok tt /\ write c = Ok tt.

(** A counter reading of the operating system: 64 bits, not negative. *)
Definition counter (n : Z) : Prop := (0 <= n < 2 ^ 64)%Z.

(** What the guard of the writer lets through: rates that are not below
    zero and packet totals that are not negative. *)
Definition passed_the_guard (p : Point.t) : Prop :=
  (Point.download_speed p <? 0)%float = false /\
  (Point.upload_speed p <? 0)%float = false /\
  (0 <= Point.packets_sent p)%Z /\
  (0 <= Point.packets_recv p)%Z.

(** Timestamps in the order of the list. *)
Fixpoint in_order (times : list Z) : Prop :=
  match times with
  | [] => True
  | t :: times' => Forall (fun t' => (t <= t')%Z) times' /\ in_order times'
  end.

End CollectorRuns.

(** What the statements about the assessments speak of. *)
Module AssessmentSpec.

Import Predictor.

(** Where a value stands against the two cutoffs that are read. *)
Inductive tier := AtOptimal | AtWarning | Beyond.

Definition upload_tier (c : Cutoffs) (upload : float) : tier :=
  if geb upload (optimal c) then AtOptimal
  else if geb upload (warning c) then AtWarning
  else Beyond.

Definition latency_tier (c : Cutoffs) (latency : float) : tier :=
  if (latency <=? optimal c)%float then AtOptimal
  else if (latency <=? warning c)%float then AtWarning
  else Beyond.

(** The status for each pair of tiers. *)
Definition status_table (upload latency : tier) : string :=
  match latency, upload with
  | AtOptimal, Beyond => "good"
  | AtOptimal, _ => "optimal"
  | AtWarning, Beyond => "warning"
  | AtWarning, _ => "good"
  | Beyond, AtOptimal => "warning"
  | Beyond, _ => "critical"
  end%string.

(** The cutoffs of the period that an assessment was made for. *)
Definition cutoffs (is_peak : bool) (m : Periods) : Cutoffs :=
  if is_peak then peak m else off_peak m.

(** Two tables that differ at most in their critical cutoffs. *)
Definition same_but_critical (c c' : Cutoffs) : Prop :=
  optimal c = optimal c' /\ warning c = warning c'.

Definition same_but_critical_table (self self' : Thresholds) : Prop :=
  peak_hours self = peak_hours self' /\
  same_but_critical (peak (upload self)) (peak (upload self')) /\
  same_but_critical (off_peak (upload self)) (off_peak (upload self')) /\
  same_but_critical (peak (latency self)) (peak (latency self')) /\
  same_but_critical (off_peak (latency self)) (off_peak (latency self')).

(** The window a number of seconds later. *)
Definition later (seconds : Z) (r : Row.t) : Row.t :=
  {| Row._time := (Row._time r + seconds)%Z;
     Row.upload_speed := Row.upload_speed r;
     Row.latency := Row.latency r |}.

(** The tick reads a window with records and its write is accepted. *)
Definition productive (t : tick) : bool :=
  match query t, write t with
  | Ok (_ :: _), Ok _ => true
  | _, _ => false
  end.

Definition labels : list string :=
  ["optimal"; "good"; "warning"; "critical"]%string.

(** What an assessment is made of: a flag is 0 or 1, the status is one
    of the four labels and the score lies between 0 and 1. *)
Definition well_formed (p : Point.t) : Prop :=
  (Point.is_anomaly p = 0 \/ Point.is_anomaly p = 1)%Z /\
  (Point.is_peak_hour p = 0 \/ Point.is_peak_hour p = 1)%Z /\
  In (Point.health_status p) labels /\
  (0 <=? Point.health_score p)%float = true /\
  (Point.health_score p <=? 1)%float = true.

End AssessmentSpec.

(** * Facts about binary64 arithmetic

    The primitive operations are specified by the functions of [SpecFloat]
    on [spec_float]; the facts below are proved on that side and carried
    over with the specification of each primitive. *)

Section Rounding.

Import RoundingSpec.
Local Open Scope Z_scope.

Local Abbreviation emin := (SpecFloat.emin prec emax).
Local Abbreviation fexp := (SpecFloat.fexp prec emax).
Local Abbreviation shr_fexp := (SpecFloat.shr_fexp prec emax).

Lemma fexp_emin e : emin <= fexp e.
Proof. unfold SpecFloat.fexp. lia. Qed.

Lemma digits2_pos_size p : digits2_pos p = Pos.size p.
Proof. induction p; simpl; congruence. Qed.

Lemma Zdigits2_log2 m : 0 < m -> Zdigits2 m = Z.log2 m + 1.
Proof.
  destruct m as [|p|p]; try lia. intros _.
  destruct p; simpl; rewrite ?digits2_pos_size; lia.
Qed.

Lemma Zdigits2_pos m : 0 < m -> 0 < Zdigits2 m.
Proof.
  intros H. rewrite Zdigits2_log2 by trivial.
  pose proof (Z.log2_nonneg m). lia.
Qed.

(** A positive [m] has [Zdigits2 m] bits. *)
Lemma Zdigits2_bounds m :
  0 < m -> 2 ^ (Zdigits2 m - 1) <= m < 2 ^ Zdigits2 m.
Proof.
  intros H. rewrite Zdigits2_log2 by trivial.
  replace (Z.log2 m + 1 - 1) with (Z.log2 m) by lia.
  replace (Z.log2 m + 1) with (Z.succ (Z.log2 m)) by lia.
  now apply Z.log2_spec.
Qed.

Lemma Zdigits2_le m n : 0 < m -> m <= n -> Zdigits2 m <= Zdigits2 n.
Proof.
  intros Hm Hn. rewrite !Zdigits2_log2 by lia.
  pose proof (Z.log2_le_mono m n Hn). lia.
Qed.

Lemma Zdigits2_mul_pow2 m k :
  0 < m -> 0 <= k -> Zdigits2 (m * 2 ^ k) = Zdigits2 m + k.
Proof.
  intros Hm Hk.
  assert (0 < m * 2 ^ k) by (apply Z.mul_pos_pos; [|apply Z.pow_pos_nonneg]; lia).
  rewrite !Zdigits2_log2 by trivial.
  rewrite <- Z.shiftl_mul_pow2 by trivial.
  rewrite Z.log2_shiftl by trivial. lia.
Qed.

Lemma shr_1_m mrs : 0 <= shr_m mrs -> shr_m (shr_1 mrs) = shr_m mrs / 2.
Proof.
  destruct mrs as [m r s]. simpl. intros Hm.
  rewrite <- Z.div2_div.
  destruct m as [|[p|p|]|p]; try reflexivity; lia.
Qed.

Lemma iter_pos_shr_1_m p : forall mrs,
  0 <= shr_m mrs ->
  shr_m (SpecFloat.iter_pos shr_1 p mrs) = shr_m mrs / 2 ^ Zpos p.
Proof.
  assert (Hp : forall q, 0 < 2 ^ Zpos q) by (intros; apply Z.pow_pos_nonneg; lia).
  assert (Hnn : forall m q, 0 <= m -> 0 <= m / 2 ^ Zpos q).
  { intros m q Hm. apply Z.div_pos; trivial. }
  induction p as [p IH|p IH|]; intros mrs Hm; simpl SpecFloat.iter_pos.
  - assert (H1 : 0 <= shr_m (shr_1 mrs)) by (rewrite shr_1_m; [apply Z.div_pos|]; lia).
    assert (H2 : 0 <= shr_m (SpecFloat.iter_pos shr_1 p (shr_1 mrs))) by (rewrite IH; auto).
    rewrite IH, IH, shr_1_m by trivial.
    pose proof (Hp p).
    rewrite !Z.div_div by lia.
    f_equal.
    replace (Z.pos p~1) with (1 + Z.pos p + Z.pos p) by lia.
    rewrite !Z.pow_add_r by lia. change (2 ^ 1) with 2. ring.
  - assert (H2 : 0 <= shr_m (SpecFloat.iter_pos shr_1 p mrs)) by (rewrite IH; auto).
    rewrite IH, IH by trivial.
    pose proof (Hp p).
    rewrite Z.div_div by lia.
    f_equal.
    replace (Z.pos p~0) with (Z.pos p + Z.pos p) by lia.
    rewrite Z.pow_add_r by lia. reflexivity.
  - now apply shr_1_m.
Qed.

(** The mantissa and exponent that [shr] leaves. *)
Lemma shr_m_e mrs e n :
  0 <= shr_m mrs ->
  shr_m (fst (shr mrs e n)) = shr_m mrs / 2 ^ Z.max n 0 /\
  snd (shr mrs e n) = e + Z.max n 0.
Proof.
  intros Hm. destruct n as [|p|p]; simpl.
  - rewrite Z.div_1_r. split; lia.
  - rewrite iter_pos_shr_1_m by trivial. split; trivial.
  - rewrite Z.div_1_r. split; lia.
Qed.

Lemma shr_record_of_loc_m m l : shr_m (shr_record_of_loc m l) = m.
Proof. destruct l as [|[]]; reflexivity. Qed.

Lemma shr_fexp_m_e m e l :
  0 <= m ->
  let n := Z.max (fexp (Zdigits2 m + e) - e) 0 in
  shr_m (fst (shr_fexp m e l)) = m / 2 ^ n /\
  snd (shr_fexp m e l) = e + n.
Proof.
  intros Hm n. unfold SpecFloat.shr_fexp.
  pose proof (shr_m_e (shr_record_of_loc m l) e (fexp (Zdigits2 m + e) - e)) as H.
  rewrite shr_record_of_loc_m in H. now apply H.
Qed.

Lemma round_nearest_even_bounds m l :
  m <= round_nearest_even m l <= m + 1.
Proof.
  destruct l as [|[]]; simpl; try lia.
  destruct (Z.even m); lia.
Qed.

Lemma Zdigits2_div_pow2 m n :
  0 <= m -> 0 <= n -> Zdigits2 (m / 2 ^ n) <= Z.max (Zdigits2 m - n) 0.
Proof.
  intros Hm Hn.
  assert (H2 : 0 < 2 ^ n) by (apply Z.pow_pos_nonneg; lia).
  assert (Hq : 0 <= m / 2 ^ n) by (apply Z.div_pos; lia).
  destruct (Z.eq_dec (m / 2 ^ n) 0) as [->|Hnz]; [simpl; lia|].
  assert (0 < m).
  { destruct (Z.eq_dec m 0) as [->|]; [|lia]. now rewrite Z.div_0_l in Hnz by lia. }
  assert (n <= Z.log2 m).
  { apply Z.log2_le_pow2; trivial.
    destruct (Z.lt_ge_cases m (2 ^ n)); trivial.
    now rewrite Z.div_small in Hnz by lia. }
  rewrite !Zdigits2_log2 by lia.
  rewrite <- Z.shiftr_div_pow2, Z.log2_shiftr by lia. lia.
Qed.

Lemma Zdigits2_succ m : 0 <= m -> Zdigits2 (m + 1) <= Zdigits2 m + 1.
Proof.
  intros Hm. destruct (Z.eq_dec m 0) as [->|]; [simpl; lia|].
  rewrite !Zdigits2_log2 by lia.
  pose proof (Z.log2_le_mono (m + 1) (2 * m)).
  rewrite Z.log2_double in * by lia. lia.
Qed.

(** [binary_round_aux] on a mantissa that is not negative: a first shift,
    the rounding of the last place, and a second shift for the carry. *)
Lemma binary_round_aux_eq s m e l :
  0 <= m ->
  exists m1,
    m / 2 ^ excess m e <= m1 <= m / 2 ^ excess m e + 1 /\
    let e1 := e + excess m e in
    let m2 := m1 / 2 ^ excess m1 e1 in
    let e2 := e1 + excess m1 e1 in
    binary_round_aux prec emax s m e l =
    match m2 with
    | Z0 => S754_zero s
    | Zpos p => if e2 <=? emax - prec then S754_finite s p e2
                else S754_infinity s
    | Zneg _ => S754_nan
    end.
Proof.
  intros Hm. unfold binary_round_aux.
  destruct (shr_fexp_m_e m e l Hm) as [Hm1 He1].
  destruct (shr_fexp m e l) as [mrs' e'] eqn:E1. simpl fst in *. simpl snd in *.
  fold (excess m e) in Hm1, He1.
  set (m1 := round_nearest_even (shr_m mrs') (loc_of_shr_record mrs')).
  assert (B1 : shr_m mrs' <= m1 <= shr_m mrs' + 1)
    by apply round_nearest_even_bounds.
  assert (H2 : 0 < 2 ^ excess m e) by (apply Z.pow_pos_nonneg; unfold excess; lia).
  assert (Hq : 0 <= m / 2 ^ excess m e) by (apply Z.div_pos; lia).
  assert (Hm1' : 0 <= m1) by lia.
  destruct (shr_fexp_m_e m1 e' loc_Exact Hm1') as [Hm2 He2].
  destruct (shr_fexp m1 e' loc_Exact) as [mrs'' e''] eqn:E2.
  simpl fst in *. simpl snd in *.
  fold (excess m1 e') in Hm2, He2.
  exists m1. split; [lia|]. cbv zeta.
  rewrite <- He1, <- Hm2, <- He2. reflexivity.
Qed.

(** With an exponent that is not below [emin], a positive mantissa keeps
    at least one bit through the shift. *)
Lemma excess_keeps_bit m e :
  0 < m -> emin <= e -> 1 <= m / 2 ^ excess m e.
Proof.
  intros Hm He.
  pose proof (Zdigits2_pos m Hm) as Hd.
  pose proof (Zdigits2_bounds m Hm) as [Hlo _].
  assert (Hx : 0 <= excess m e <= Zdigits2 m - 1).
  { unfold excess, SpecFloat.fexp. assert (prec = 53) by reflexivity. lia. }
  assert (2 ^ excess m e <= m).
  { etransitivity; [|exact Hlo]. apply Z.pow_le_mono_r; lia. }
  assert (0 < 2 ^ excess m e) by (apply Z.pow_pos_nonneg; lia).
  apply Z.div_le_lower_bound; lia.
Qed.

Lemma binary_round_aux_sign s m e l :
  0 <= m -> sign_is s (binary_round_aux prec emax s m e l) = true.
Proof.
  intros Hm.
  destruct (binary_round_aux_eq s m e l Hm) as (m1 & B1 & ->).
  assert (H2 : 0 < 2 ^ excess m e) by (apply Z.pow_pos_nonneg; unfold excess; lia).
  assert (Hq : 0 <= m / 2 ^ excess m e) by (apply Z.div_pos; lia).
  assert (H3 : 0 < 2 ^ excess m1 (e + excess m e))
    by (apply Z.pow_pos_nonneg; unfold excess; lia).
  assert (Hq' : 0 <= m1 / 2 ^ excess m1 (e + excess m e)) by (apply Z.div_pos; lia).
  destruct (m1 / 2 ^ excess m1 (e + excess m e)) as [|p|p]; try lia.
  - simpl. apply eqb_reflx.
  - destruct (_ <=? _); simpl; apply eqb_reflx.
Qed.

Lemma binary_round_aux_nonzero s m e l :
  0 < m -> emin <= e -> nonzero (binary_round_aux prec emax s m e l) = true.
Proof.
  intros Hm He.
  destruct (binary_round_aux_eq s m e l) as (m1 & B1 & ->); [lia|].
  pose proof (excess_keeps_bit m e Hm He).
  assert (He1 : emin <= e + excess m e) by (unfold excess; lia).
  pose proof (excess_keeps_bit m1 (e + excess m e)) as H1.
  destruct (m1 / 2 ^ excess m1 (e + excess m e)) as [|p|p]; try lia.
  destruct (_ <=? _); reflexivity.
Qed.

(** No overflow when the magnitude stays below [2 ^ (emax - 1)]. *)
Lemma binary_round_aux_no_overflow s m e l :
  0 <= m -> Zdigits2 m + e <= emax - 1 -> e <= emax - prec ->
  forall s', binary_round_aux prec emax s m e l <> S754_infinity s'.
Proof.
  intros Hm HD He s'.
  destruct (binary_round_aux_eq s m e l Hm) as (m1 & B1 & ->).
  assert (H2 : 0 < 2 ^ excess m e) by (apply Z.pow_pos_nonneg; unfold excess; lia).
  assert (Hq : 0 <= m / 2 ^ excess m e) by (apply Z.div_pos; lia).
  assert (Hd1 : Zdigits2 m1 <= Z.max (Zdigits2 m - excess m e) 0 + 1).
  { destruct (Z.eq_dec m1 0) as [->|]; [simpl; lia|].
    etransitivity; [apply (Zdigits2_le m1 (m / 2 ^ excess m e + 1)); lia|].
    etransitivity; [apply Zdigits2_succ; lia|].
    pose proof (Zdigits2_div_pow2 m (excess m e)). unfold excess in *. lia. }
  set (e1 := e + excess m e) in *.
  destruct (m1 / 2 ^ excess m1 e1) as [|p|p]; try discriminate.
  destruct (e1 + excess m1 e1 <=? emax - prec) eqn:E; [discriminate|].
  apply Z.leb_gt in E. exfalso.
  assert (prec = 53) by reflexivity. assert (emax = 1024) by reflexivity.
  unfold excess, SpecFloat.fexp, SpecFloat.emin in *. lia.
Qed.

End Rounding.

Section Binary64.

Import RoundingSpec.
Local Open Scope Z_scope.

Lemma binary_round_sign s m e :
  sign_is s (binary_round prec emax s m e) = true.
Proof.
  unfold binary_round. destruct (shl_align m e _) as [mz ez].
  apply binary_round_aux_sign. lia.
Qed.

Lemma binary_normalize_sign m e :
  0 <= m -> sign_is false (binary_normalize prec emax m e false) = true.
Proof.
  destruct m as [|p|p]; intros H; try lia; simpl; trivial.
  apply binary_round_sign.
Qed.

Lemma SFldexp_sign s f e :
  sign_is s f = true -> sign_is s (SFldexp prec emax f e) = true.
Proof.
  destruct f as [| | |s' m' e']; simpl; trivial.
  intros H. apply eqb_prop in H. subst s'. apply binary_round_sign.
Qed.

Lemma SFleb_zero_sign f :
  sign_is false f = true -> SFleb (S754_zero false) f = true.
Proof. destruct f as [[]|[]| |[] m e]; simpl; trivial. Qed.

Lemma SF2Prim_nonneg f :
  sign_is false f = true -> (0 <=? SF2Prim f)%float = true.
Proof.
  destruct f as [[]|[]| |[] m e]; simpl; try discriminate; intros _;
    try reflexivity.
  rewrite leb_spec, Z_ldexp_spec, of_uint63_spec.
  apply SFleb_zero_sign, SFldexp_sign, binary_normalize_sign.
  apply Uint63.to_Z_bounded.
Qed.

(** The quotient and the exponent that the division core hands to the
    rounding, for two positive integers. *)
Lemma SFdiv_core_binary_int a b :
  0 < a -> 0 < b ->
  let '(q, e, l) := SFdiv_core_binary prec emax a 0 b 0 in
  0 <= q /\ e <= 0 /\ Zdigits2 q + e <= Zdigits2 a.
Proof.
  intros Ha Hb. unfold SFdiv_core_binary.
  set (e := Z.min _ _).
  assert (He : e <= 0) by (subst e; lia).
  set (m' := match 0 - 0 - e with Z.pos _ => _ | _ => _ end).
  assert (Hm' : m' = a * 2 ^ (- e)).
  { subst m'. destruct (0 - 0 - e) as [|p|p] eqn:E; try lia.
    - replace (- e) with 0 by lia. simpl. lia.
    - rewrite Z.shiftl_mul_pow2 by lia. f_equal. f_equal. lia. }
  assert (H2 : 0 < 2 ^ (- e)) by (apply Z.pow_pos_nonneg; lia).
  assert (Hm'pos : 0 < m') by (rewrite Hm'; apply Z.mul_pos_pos; lia).
  pose proof (Z.div_eucl_eq m' b ltac:(lia)) as Heq.
  pose proof (Z.mod_pos_bound m' b Hb) as Hr.
  unfold Z.modulo in Hr.
  destruct (Z.div_eucl m' b) as [q r].
  assert (Hq : 0 <= q) by nia.
  split; [trivial|]. split; [trivial|].
  destruct (Z.eq_dec q 0) as [->|Hq0].
  { simpl. pose proof (Zdigits2_pos a Ha). lia. }
  assert (q <= m') by nia.
  pose proof (Zdigits2_le q m' ltac:(lia) ltac:(lia)).
  rewrite Hm', Zdigits2_mul_pow2 in * by lia. lia.
Qed.

Lemma truediv_examples :
  truediv 1 3 = Ok (1 / 3)%float /\
  truediv 2000000 1000000 = Ok 2%float /\
  truediv (-7) 2 = Ok (-3.5)%float /\
  truediv (2 ^ 53 + 1) 1 = Ok 9007199254740992%float /\
  truediv (2 ^ 53 + 3) 1 = Ok 9007199254740996%float /\
  truediv 0 (-5) = Ok (-0)%float /\
  truediv (10 ^ 400) (10 ^ 399) = Ok 10%float /\
  truediv (10 ^ 400) 1 = Raise OverflowError /\
  truediv 1 0 = Raise ZeroDivisionError.
Proof. repeat split; vm_compute; reflexivity. Qed.

(** An integer quotient whose operands have the same sign is not below
    zero. *)
Lemma truediv_nonneg a b r :
  0 <= a -> 0 < b -> truediv a b = Ok r -> (0 <=? r)%float = true.
Proof.
  intros Ha Hb. unfold truediv.
  destruct b as [|b|b]; try lia.
  destruct a as [|a|a]; try lia.
  - simpl. intros H. injection H as <-. reflexivity.
  - pose proof (SFdiv_core_binary_int (Z.pos a) (Z.pos b) ltac:(lia) ltac:(lia)) as H.
    simpl Z.abs.
    change (xorb (Z.pos a <? 0) (Z.pos b <? 0)) with false.
    destruct (SFdiv_core_binary prec emax (Z.pos a) 0 (Z.pos b) 0) as [[q e] l].
    destruct H as (Hq & _).
    pose proof (binary_round_aux_sign false q e l Hq) as Hs.
    destruct (binary_round_aux prec emax false q e l) eqn:E;
      cbv beta iota; try discriminate; intros H; injection H as H; subst r;
      match type of E with _ = ?f => exact (SF2Prim_nonneg f Hs) end.
Qed.

Lemma round_quotient_finite s a b :
  0 < a < 2 ^ 1023 -> 0 < b ->
  let '(q, e, l) := SFdiv_core_binary prec emax a 0 b 0 in
  forall s', binary_round_aux prec emax s q e l <> S754_infinity s'.
Proof.
  intros Ha Hb.
  pose proof (SFdiv_core_binary_int a b ltac:(lia) Hb) as H.
  destruct (SFdiv_core_binary prec emax a 0 b 0) as [[q e] l].
  destruct H as (Hq & He & Hd).
  assert (Zdigits2 a <= 1023).
  { pose proof (Zdigits2_bounds a ltac:(lia)) as [Hlo _].
    destruct (Z.le_gt_cases (Zdigits2 a) 1023) as [|Hgt]; trivial.
    assert (2 ^ 1023 <= 2 ^ (Zdigits2 a - 1)) by (apply Z.pow_le_mono_r; lia).
    lia. }
  assert (emax = 1024) by reflexivity. assert (prec = 53) by reflexivity.
  apply binary_round_aux_no_overflow; lia.
Qed.

(** It is defined for a dividend below [2 ^ 1023]. *)
Lemma truediv_defined a b :
  b <> 0 -> Z.abs a < 2 ^ 1023 -> exists r, truediv a b = Ok r.
Proof.
  intros Hb Ha. unfold truediv.
  destruct b as [|b|b]; try lia;
    (destruct a as [|a|a]; [eexists; reflexivity| |]);
    simpl Z.abs in *;
    match goal with
    | |- context [binary_round_aux prec emax ?s] =>
        pose proof (round_quotient_finite s (Z.pos a) (Z.pos b)
                      ltac:(lia) ltac:(lia)) as H
    end;
    destruct (SFdiv_core_binary prec emax (Z.pos a) 0 (Z.pos b) 0) as [[q e] l];
    match goal with
    | |- context [binary_round_aux prec emax ?s q e l] =>
        destruct (binary_round_aux prec emax s q e l) as [| s' | |] eqn:E
    end;
    cbv beta iota; try (eexists; reflexivity);
    now destruct (H s').
Qed.

Lemma bounded_inv m e :
  bounded prec emax m e = true ->
  SpecFloat.fexp prec emax (Z.pos (digits2_pos m) + e) = e /\ e <= emax - prec.
Proof.
  unfold bounded, canonical_mantissa.
  now rewrite andb_true_iff, Z.eqb_eq, Z.leb_le.
Qed.

(** Rounding a float of the format gives it back. *)
Lemma binary_round_aux_canonical s m e :
  bounded prec emax m e = true ->
  binary_round_aux prec emax s (Z.pos m) e loc_Exact = S754_finite s m e.
Proof.
  intros H. destruct (bounded_inv _ _ H) as [Hc He].
  unfold binary_round_aux, shr_fexp. simpl Zdigits2.
  rewrite Hc, Z.sub_diag.
  cbn [shr shr_record_of_loc loc_of_shr_record round_nearest_even shr_m Zdigits2].
  rewrite Hc, Z.sub_diag.
  cbn [shr shr_record_of_loc shr_m].
  apply Z.leb_le in He. now rewrite He.
Qed.

(** So does rounding its double with the exponent below. *)
Lemma binary_round_aux_double s m e :
  bounded prec emax m e = true ->
  binary_round_aux prec emax s (Z.pos m~0) (e - 1) loc_Exact = S754_finite s m e.
Proof.
  intros H. destruct (bounded_inv _ _ H) as [Hc He].
  unfold binary_round_aux, shr_fexp. simpl Zdigits2.
  replace (Z.pos (Pos.succ (digits2_pos m)) + (e - 1))
    with (Z.pos (digits2_pos m) + e) by lia.
  rewrite Hc. replace (e - (e - 1)) with 1 by lia.
  cbn [shr shr_record_of_loc loc_of_shr_record round_nearest_even shr_m
         shr_1 SpecFloat.iter_pos Zdigits2 orb].
  replace (e - 1 + 1) with e by lia.
  rewrite Hc, Z.sub_diag.
  cbn [shr shr_record_of_loc shr_m].
  apply Z.leb_le in He. now rewrite He.
Qed.

Lemma div_eucl_exact a c q :
  0 < c -> a = c * q -> Z.div_eucl a c = (q, 0).
Proof.
  intros Hc ->.
  pose proof (Z.div_eucl_eq (c * q) c ltac:(lia)) as Heq.
  pose proof (Z.mod_pos_bound (c * q) c Hc) as Hr.
  unfold Z.modulo in Hr.
  destruct (Z.div_eucl (c * q) c) as [q' r].
  assert (r = 0).
  { assert (Hm : r = c * (q - q')) by lia.
    destruct (Z.eq_dec q q') as [->|]; [lia|]. nia. }
  subst r. f_equal. nia.
Qed.

(** Dividing by one is exact. *)
Lemma div_one x : (x / 1)%float = x.
Proof.
  apply Prim2SF_inj. rewrite div_spec. unfold SF64div.
  change (Prim2SF 1) with (S754_finite false 4503599627370496 (-52)).
  pose proof (Prim2SF_valid x) as Hv.
  destruct (Prim2SF x) as [s|s| |s m e]; simpl SFdiv;
    try (now destruct s); trivial.
  simpl in Hv. destruct (bounded_inv _ _ Hv) as [Hc He].
  rewrite xorb_false_r.
  unfold SFdiv_core_binary.
  change (Zdigits2 4503599627370496) with 53.
  simpl Zdigits2.
  set (d := Z.pos (digits2_pos m)) in *.
  set (e' := Z.min _ _).
  assert (Hd : 0 < d) by (subst d; lia).
  assert (He' : e' = e \/ e' = e - 1).
  { subst e'. unfold SpecFloat.fexp, SpecFloat.emin in *.
    assert (prec = 53) by reflexivity. assert (emax = 1024) by reflexivity.
    lia. }
  assert (Hfe' : e' = e - 1 -> SpecFloat.fexp prec emax (d + e - 1) = e - 1).
  { subst e'. unfold SpecFloat.fexp, SpecFloat.emin in *.
    assert (prec = 53) by reflexivity. assert (emax = 1024) by reflexivity.
    lia. }
  clearbody e'.
  destruct He' as [-> | ->].
  - replace (e - -52 - e) with 52 by lia.
    rewrite (div_eucl_exact _ _ (Z.pos m))
      by (rewrite ?Z.shiftl_mul_pow2; lia).
    change (new_location 4503599627370496 0) with loc_Exact.
    now apply binary_round_aux_canonical.
  - replace (e - -52 - (e - 1)) with 53 by lia.
    rewrite (div_eucl_exact _ _ (Z.pos m~0))
      by (rewrite ?Z.shiftl_mul_pow2; lia).
    change (new_location 4503599627370496 0) with loc_Exact.
    now apply binary_round_aux_double.
Qed.

(** *** The difference of two floats *)

Lemma shl_align_fst m e e' :
  e' <= e -> Z.pos (fst (shl_align m e e')) = Z.pos m * 2 ^ (e - e').
Proof.
  intros H. unfold shl_align.
  destruct (e' - e) as [|d|d] eqn:E; try lia; simpl fst.
  - replace (e - e') with 0 by lia. lia.
  - replace (e - e') with (Z.pos d) by lia.
    clear. induction d as [|d IH] using Pos.peano_ind.
    + simpl. lia.
    + rewrite Pos.iter_succ, Pos2Z.inj_succ, Z.pow_succ_r by lia.
      rewrite Pos2Z.inj_xO, IH. lia.
Qed.

Lemma shl_align_snd m e e' : snd (shl_align m e e') = Z.min e e'.
Proof.
  unfold shl_align. destruct (e' - e) as [|d|d] eqn:E; simpl; lia.
Qed.

Lemma binary_round_nonzero s m e :
  SpecFloat.emin prec emax <= e ->
  nonzero (binary_round prec emax s m e) = true.
Proof.
  intros He. unfold binary_round.
  pose proof (shl_align_snd m e
                (SpecFloat.fexp prec emax (Z.pos (digits2_pos m) + e))) as Hs.
  destruct (shl_align m e _) as [mz ez]. cbn [snd] in Hs.
  apply binary_round_aux_nonzero; [lia|].
  pose proof (fexp_emin (Z.pos (digits2_pos m) + e)). lia.
Qed.

(** Two floats of the format that are aligned on the smaller exponent
    have the same mantissa only if they are the same. *)
Lemma aligned_eq mx ex my ey :
  bounded prec emax mx ex = true ->
  bounded prec emax my ey = true ->
  Z.pos mx * 2 ^ (ex - Z.min ex ey) = Z.pos my * 2 ^ (ey - Z.min ex ey) ->
  ex = ey /\ mx = my.
Proof.
  intros Hx Hy H.
  destruct (bounded_inv _ _ Hx) as [Hcx _].
  destruct (bounded_inv _ _ Hy) as [Hcy _].
  assert (Hd : Zdigits2 (Z.pos mx * 2 ^ (ex - Z.min ex ey)) =
               Zdigits2 (Z.pos my * 2 ^ (ey - Z.min ex ey))) by now rewrite H.
  rewrite !Zdigits2_mul_pow2 in Hd by lia. simpl Zdigits2 in Hd.
  assert (He : ex = ey).
  { rewrite <- Hcx, <- Hcy. f_equal. lia. }
  subst ey. split; trivial.
  rewrite Z.min_id, Z.sub_diag in H. simpl in H. lia.
Qed.

Lemma SFeqb_finite sx mx ex sy my ey :
  SFeqb (S754_finite sx mx ex) (S754_finite sy my ey) = true <->
  sx = sy /\ ex = ey /\ mx = my.
Proof.
  unfold SFeqb, SFcompare.
  destruct sx, sy; try (split; [discriminate|intros [? _]; discriminate]).
  all: destruct (Z.compare_spec ex ey) as [He|He|He];
    try (split; [discriminate|intros (_ & ? & _); lia]).
  all: fold (Pos.compare mx my);
    destruct (Pos.compare_spec mx my) as [Hm|Hm|Hm]; simpl;
    try (split; [discriminate|intros (_ & _ & ?); lia]).
  all: split; auto.
Qed.

(** The difference of two floats is zero exactly when they are equal;
    [inf - inf] is not a number. *)
Lemma SFsub_nonzero x y :
  valid_binary x = true -> valid_binary y = true ->
  x <> S754_nan -> y <> S754_nan ->
  nonzero (SFsub prec emax x y) = negb (SFeqb x y).
Proof.
  intros Hx Hy Nx Ny.
  destruct x as [sx|sx| |sx mx ex], y as [sy|sy| |sy my ey];
    try contradiction; try reflexivity;
    try (now destruct sx, sy); try (now destruct sx); try (now destruct sy).
  simpl in Hx, Hy. cbn [SFsub].
  set (ez := Z.min ex ey).
  rewrite !shl_align_fst by (subst ez; lia).
  destruct (bounded_inv _ _ Hx) as [Hcx _].
  destruct (bounded_inv _ _ Hy) as [Hcy _].
  assert (Hez : SpecFloat.emin prec emax <= ez).
  { pose proof (fexp_emin (Z.pos (digits2_pos mx) + ex)).
    pose proof (fexp_emin (Z.pos (digits2_pos my) + ey)). subst ez. lia. }
  assert (HX : 0 < Z.pos mx * 2 ^ (ex - ez))
    by (apply Z.mul_pos_pos; [|apply Z.pow_pos_nonneg; subst ez]; lia).
  assert (HY : 0 < Z.pos my * 2 ^ (ey - ez))
    by (apply Z.mul_pos_pos; [|apply Z.pow_pos_nonneg; subst ez]; lia).
  destruct (SFeqb (S754_finite sx mx ex) (S754_finite sy my ey)) eqn:E.
  - apply SFeqb_finite in E. destruct E as (-> & -> & ->).
    rewrite Z.sub_diag. reflexivity.
  - assert (Hne : cond_Zopp sx (Z.pos mx * 2 ^ (ex - ez))
                  - cond_Zopp sy (Z.pos my * 2 ^ (ey - ez)) <> 0).
    { intros H0.
      assert (sx = sy /\ Z.pos mx * 2 ^ (ex - ez) = Z.pos my * 2 ^ (ey - ez))
        as [-> HXY] by (destruct sx, sy; cbn [cond_Zopp] in H0; split; trivial; lia).
      destruct (aligned_eq _ _ _ _ Hx Hy HXY) as [-> ->].
      assert (SFeqb (S754_finite sy my ey) (S754_finite sy my ey) = true)
        by now apply SFeqb_finite.
      congruence. }
    destruct (cond_Zopp sx _ - cond_Zopp sy _) as [|p|p];
      [contradiction| |]; simpl; now apply binary_round_nonzero.
Qed.

Lemma is_nan_false x : is_nan x = false -> Prim2SF x <> S754_nan.
Proof.
  unfold is_nan. rewrite FloatAxioms.eqb_spec. intros H E. rewrite E in H. discriminate.
Qed.

Lemma eqb_zero s : (s =? 0)%float = true -> exists b, Prim2SF s = S754_zero b.
Proof.
  rewrite FloatAxioms.eqb_spec. change (Prim2SF 0) with (S754_zero false).
  destruct (Prim2SF s) as [b|[]| |[] m e]; try discriminate. now exists b.
Qed.

(** Against a standard deviation of zero, a value deviates exactly when it
    differs from the mean. *)
Lemma abs_sub_gt_zero c m s :
  (s =? 0)%float = true -> is_nan c = false -> is_nan m = false ->
  (2 * s <? abs (c - m))%float = negb (c =? m)%float.
Proof.
  intros Hs Hc Hm.
  destruct (eqb_zero s Hs) as [b Hb].
  rewrite ltb_spec, abs_spec, sub_spec, mul_spec, FloatAxioms.eqb_spec, Hb.
  change (Prim2SF 2) with (S754_finite false 4503599627370496 (-51)).
  unfold SF64mul, SF64sub. cbn [SFmul].
  rewrite <- (SFsub_nonzero (Prim2SF c) (Prim2SF m))
    by auto using Prim2SF_valid, is_nan_false.
  now destruct (SFsub prec emax (Prim2SF c) (Prim2SF m)) as [[]|[]| |[] ? ?].
Qed.

(** *** The square of a difference *)

Lemma binary_round_aux_same_magnitude s s' m e l :
  same_magnitude (binary_round_aux prec emax s m e l)
    (binary_round_aux prec emax s' m e l).
Proof.
  unfold binary_round_aux.
  destruct (shr_fexp prec emax m e l) as [mrs e1].
  destruct (shr_fexp prec emax _ e1 loc_Exact) as [mrs' e2].
  destruct (shr_m mrs'); simpl; trivial.
  destruct (_ <=? _); simpl; auto.
Qed.

Lemma SFsub_same_magnitude x y :
  same_magnitude (SFsub prec emax x y) (SFsub prec emax y x).
Proof.
  destruct x as [sx|sx| |sx mx ex], y as [sy|sy| |sy my ey];
    try (now destruct sx, sy); try (now destruct sx); try (now destruct sy);
    try (simpl; auto; fail).
  cbn [SFsub]. rewrite (Z.min_comm ey ex).
  set (X := cond_Zopp sx _). set (Y := cond_Zopp sy _).
  replace (Y - X) with (- (X - Y)) by lia.
  destruct (X - Y) as [|p|p]; simpl; trivial;
    unfold binary_round; destruct (shl_align p _ _);
    apply binary_round_aux_same_magnitude.
Qed.

Lemma SFmul_same_magnitude x y :
  same_magnitude x y -> SFmul prec emax x x = SFmul prec emax y y.
Proof.
  destruct x as [sx|sx| |sx mx ex], y as [sy|sy| |sy my ey];
    simpl; try contradiction; trivial.
  - now destruct sx, sy.
  - now destruct sx, sy.
  - intros [-> ->]. now destruct sx, sy.
Qed.

(** The squared distance of two floats does not depend on the side from
    which it is taken. *)
Lemma sq_sub_sym a b : ((a - b) * (a - b) = (b - a) * (b - a))%float.
Proof.
  apply Prim2SF_inj. rewrite !mul_spec, !sub_spec.
  apply SFmul_same_magnitude, SFsub_same_magnitude.
Qed.

End Binary64.

(** ** Signs, comparisons with not-a-number, and square roots *)

Section Signs.

Import RoundingSpec SignSpec.
Local Open Scope Z_scope.

Lemma SFltb_zero_not_negative x :
  not_negative x = true -> SFltb x (S754_zero false) = false.
Proof. destruct x as [[]|[]| |[] m e]; simpl; trivial; discriminate. Qed.

Lemma sign_is_not_negative x :
  sign_is false x = true -> not_negative x = true.
Proof. destruct x as [[]|[]| |[] m e]; simpl; trivial. Qed.

Lemma SFleb_zero_not_negative x :
  SFleb (S754_zero false) x = true -> not_negative x = true.
Proof. destruct x as [[]|[]| |[] m e]; simpl; trivial. Qed.

(** A float that is at or above zero is not below it. *)
Lemma leb_zero_ltb x : (0 <=? x)%float = true -> (x <? 0)%float = false.
Proof.
  rewrite leb_spec, ltb_spec. change (Prim2SF 0) with (S754_zero false).
  intros H. now apply SFltb_zero_not_negative, SFleb_zero_not_negative.
Qed.

Lemma SFeqb_refl x :
  x <> S754_nan -> SFeqb x x = true.
Proof.
  destruct x as [[]|[]| |[] m e]; try reflexivity; try contradiction; intros _;
    unfold SFeqb, SFcompare; rewrite Z.compare_refl;
    fold (Pos.compare m m); now rewrite Pos.compare_refl.
Qed.

Lemma is_nan_true x : is_nan x = true -> Prim2SF x = S754_nan.
Proof.
  unfold is_nan. rewrite FloatAxioms.eqb_spec. intros H.
  destruct (Prim2SF x) eqn:E; trivial;
    rewrite SFeqb_refl in H by discriminate; discriminate.
Qed.

(** Every comparison with not-a-number is false. *)
Lemma compare_nan x y :
  is_nan x = true ->
  (x <? y)%float = false /\ (y <? x)%float = false /\
  (x <=? y)%float = false /\ (y <=? x)%float = false /\
  (x =? y)%float = false.
Proof.
  intros H. apply is_nan_true in H.
  rewrite !ltb_spec, !leb_spec, FloatAxioms.eqb_spec, H.
  unfold SFltb, SFleb, SFeqb.
  destruct (Prim2SF y) as [[]|[]| |[] m e]; repeat split.
Qed.

Lemma SFsqrt_core_binary_nonneg m e :
  0 <= m ->
  let '(q, e', l) := SFsqrt_core_binary prec emax m e in 0 <= q.
Proof.
  intros Hm. unfold SFsqrt_core_binary.
  set (e' := Z.min _ _). set (s := e - 2 * e').
  set (m' := match s with Z.pos _ => _ | _ => _ end).
  assert (Hm' : 0 <= m').
  { subst m'. destruct s; try lia. apply Z.shiftl_nonneg. lia. }
  pose proof (Z.sqrtrem_spec m' Hm') as H.
  destruct (Z.sqrtrem m') as [q r]. lia.
Qed.

Lemma SFsqrt_not_negative x : not_negative (SFsqrt prec emax x) = true.
Proof.
  destruct x as [[]|[]| |[] m e]; try reflexivity.
  cbn [SFsqrt].
  pose proof (SFsqrt_core_binary_nonneg (Z.pos m) e ltac:(lia)) as H.
  destruct (SFsqrt_core_binary prec emax (Z.pos m) e) as [[q e'] l].
  now apply sign_is_not_negative, binary_round_aux_sign.
Qed.

(** A square root is never below zero. *)
Lemma sqrt_not_negative x : (sqrt x <? 0)%float = false.
Proof.
  rewrite ltb_spec, sqrt_spec. change (Prim2SF 0) with (S754_zero false).
  apply SFltb_zero_not_negative, SFsqrt_not_negative.
Qed.

Lemma SFmul_not_negative x y :
  not_negative x = true -> not_negative y = true ->
  not_negative (SFmul prec emax x y) = true.
Proof.
  destruct x as [sx|sx| |sx mx ex], y as [sy|sy| |sy my ey];
    try reflexivity; simpl not_negative at 1 2;
    try (intros Hx Hy; apply negb_true_iff in Hx);
    try (intros Hx Hy; apply negb_true_iff in Hy);
    try (intros Hx Hy); subst; try reflexivity;
    try (apply negb_true_iff in Hy; subst; reflexivity).
  apply negb_true_iff in Hy. subst. cbn [SFmul xorb].
  apply sign_is_not_negative, binary_round_aux_sign. lia.
Qed.

(** When the current value equals the mean, it does not deviate from it
    by more than twice a standard deviation that is not below zero. *)
Lemma abs_sub_not_gt c m s :
  (s <? 0)%float = false -> (c =? m)%float = true ->
  (2 * s <? abs (c - m))%float = false.
Proof.
  intros Hs Hcm.
  rewrite ltb_spec in Hs. change (Prim2SF 0) with (S754_zero false) in Hs.
  rewrite FloatAxioms.eqb_spec in Hcm.
  rewrite ltb_spec, abs_spec, sub_spec, mul_spec.
  change (Prim2SF 2) with (S754_finite false 4503599627370496 (-51)).
  unfold SF64mul, SF64sub.
  assert (Hc : Prim2SF c <> S754_nan)
    by (intros E; rewrite E in Hcm; discriminate).
  assert (Hm : Prim2SF m <> S754_nan)
    by (intros E; rewrite E in Hcm; destruct (Prim2SF c); discriminate).
  pose proof (SFsub_nonzero (Prim2SF c) (Prim2SF m)
                (Prim2SF_valid c) (Prim2SF_valid m) Hc Hm) as Hz.
  rewrite Hcm in Hz. simpl in Hz.
  assert (Hy : not_negative
                 (SFmul prec emax (S754_finite false 4503599627370496 (-51))
                    (Prim2SF s)) = true).
  { apply SFmul_not_negative; trivial.
    destruct (Prim2SF s) as [[]|[]| |[] ? ?]; trivial; discriminate. }
  destruct (SFsub prec emax (Prim2SF c) (Prim2SF m)) as [sd|sd| |sd md ed];
    try discriminate; cbn [SFabs].
  - now apply SFltb_zero_not_negative.
  - unfold SFltb, SFcompare. now destruct (SFmul _ _ _ _).
Qed.

(** Nothing deviates by more than a standard deviation that is not a
    number. *)
Lemma nan_not_lt x (s : float) :
  is_nan s = true -> (2 * s <? x)%float = false.
Proof.
  intros H. apply is_nan_true in H.
  rewrite ltb_spec, mul_spec, H. unfold SF64mul.
  now destruct (Prim2SF 2).
Qed.

End Signs.

(** ** What rounding returns is a float of the format *)

Section Validity.

Import RoundingSpec SignSpec.
Local Open Scope Z_scope.

Local Abbreviation emin := (SpecFloat.emin prec emax).
Local Abbreviation fexp := (SpecFloat.fexp prec emax).

Lemma Zdigits2_div_pow2_eq m n :
  0 < m -> 0 <= n < Zdigits2 m ->
  0 < m / 2 ^ n /\ Zdigits2 (m / 2 ^ n) = Zdigits2 m - n.
Proof.
  intros Hm Hn.
  pose proof (Zdigits2_bounds m Hm) as [Hlo _].
  assert (H2 : 0 < 2 ^ n) by (apply Z.pow_pos_nonneg; lia).
  assert (Hle : 2 ^ n <= m).
  { etransitivity; [|exact Hlo]. apply Z.pow_le_mono_r; lia. }
  assert (Hq : 0 < m / 2 ^ n) by (apply Z.div_str_pos; lia).
  split; trivial.
  assert (n <= Z.log2 m) by (apply Z.log2_le_pow2; trivial).
  rewrite !Zdigits2_log2 by lia.
  rewrite <- Z.shiftr_div_pow2, Z.log2_shiftr by lia. lia.
Qed.

Lemma div_pow2_small m n : 0 <= m -> Zdigits2 m <= n -> m / 2 ^ n = 0.
Proof.
  intros Hm Hn. destruct (Z.eq_dec m 0) as [->|]; [apply Z.div_0_l|].
  - assert (0 < 2 ^ n); [|lia].
    apply Z.pow_pos_nonneg; [lia|]. simpl in Hn. lia.
  - pose proof (Zdigits2_bounds m ltac:(lia)) as [_ Hhi].
    pose proof (Zdigits2_pos m ltac:(lia)).
    apply Z.div_small. split; [lia|].
    eapply Z.lt_le_trans; [exact Hhi|]. apply Z.pow_le_mono_r; lia.
Qed.

Lemma excess_fexp m e :
  e <= fexp (Zdigits2 m + e) -> e + excess m e = fexp (Zdigits2 m + e).
Proof. unfold excess. lia. Qed.

(** The mantissa that is left after the two shifts is the canonical one
    for its exponent. *)
Lemma round_canonical m e m1 :
  0 <= m -> e <= fexp (Zdigits2 m + e) ->
  m / 2 ^ excess m e <= m1 <= m / 2 ^ excess m e + 1 ->
  let e1 := e + excess m e in
  0 < m1 / 2 ^ excess m1 e1 ->
  fexp (Zdigits2 (m1 / 2 ^ excess m1 e1) + (e1 + excess m1 e1))
  = e1 + excess m1 e1.
Proof.
  intros Hm He B1 e1 Hpos.
  assert (P53 : prec = 53) by reflexivity.
  assert (E1024 : emax = 1024) by reflexivity.
  assert (He1 : e1 = fexp (Zdigits2 m + e)) by now apply excess_fexp.
  assert (Hx : 0 <= excess m e) by (unfold excess; lia).
  assert (Hx1 : 0 <= excess m1 e1) by (unfold excess; lia).
  assert (Hm1 : 0 < m1).
  { destruct (Z.eq_dec m1 0) as [->|]; [now rewrite Z.div_0_l in Hpos|].
    assert (0 < 2 ^ excess m e) by (apply Z.pow_pos_nonneg; lia).
    assert (0 <= m / 2 ^ excess m e) by (apply Z.div_pos; lia). lia. }
  pose proof (Zdigits2_pos m1 Hm1) as Hd1.
  (* the digits of [m1] against the magnitude [Zdigits2 m + e] *)
  assert (HD : Zdigits2 m1 + e1 = Z.max (Zdigits2 m + e) (1 + e1) \/
               Zdigits2 m1 + e1 = Z.max (Zdigits2 m + e) (1 + e1) + 1 /\
               2 <= Zdigits2 m1 \/
               Zdigits2 m1 = 1 /\ e1 = emin).
  { destruct (Z.lt_ge_cases (excess m e) (Zdigits2 m)) as [Hlt|Hge].
    - assert (0 < m) by (destruct (Z.eq_dec m 0) as [->|]; [simpl in Hlt|]; lia).
      destruct (Zdigits2_div_pow2_eq m (excess m e)) as [Hq Hdq]; [lia|lia|].
      pose proof (Zdigits2_le _ _ Hq (proj1 B1)).
      pose proof (Zdigits2_le m1 _ Hm1 (proj2 B1)).
      pose proof (Zdigits2_succ (m / 2 ^ excess m e) ltac:(lia)).
      pose proof (Zdigits2_pos _ Hq).
      destruct (Z.eq_dec (Zdigits2 m1) (Zdigits2 (m / 2 ^ excess m e))).
      + left. unfold e1. lia.
      + right. left. unfold e1. lia.
    - rewrite (div_pow2_small m (excess m e)) in B1 by lia.
      assert (m1 = 1) by lia. subst m1.
      right. right. split; [reflexivity|].
      unfold excess, SpecFloat.fexp, SpecFloat.emin in *.
      destruct (Z.eq_dec m 0) as [->|]; [simpl Zdigits2 in *; lia|].
      pose proof (Zdigits2_pos m ltac:(lia)). lia. }
  assert (Hn2 : excess m1 e1 = 0 \/ excess m1 e1 = 1 /\ 2 <= Zdigits2 m1).
  { unfold excess at 1 2. unfold SpecFloat.fexp, SpecFloat.emin in *.
    destruct HD as [HD|[[HD ?]|[HD ?]]]; lia. }
  destruct Hn2 as [Hn2|[Hn2 Hd2]].
  - rewrite Hn2. change (2 ^ 0) with 1. rewrite Z.div_1_r, Z.add_0_r.
    clearbody e1.
    unfold excess, SpecFloat.fexp, SpecFloat.emin in *.
    destruct HD as [HD|[[HD ?]|[HD ?]]]; lia.
  - destruct (Zdigits2_div_pow2_eq m1 (excess m1 e1)) as [_ ->]; [lia|lia|].
    replace (Zdigits2 m1 - excess m1 e1 + (e1 + excess m1 e1))
      with (Zdigits2 m1 + e1) by lia.
    clearbody e1.
    unfold excess, SpecFloat.fexp, SpecFloat.emin in *.
    destruct HD as [HD|[[HD ?]|[HD ?]]]; lia.
Qed.

(** [binary_round_aux] returns a float of the format when its exponent
    is not above the one of the format. *)
Lemma binary_round_aux_valid s m e l :
  0 <= m -> e <= fexp (Zdigits2 m + e) ->
  valid_binary (binary_round_aux prec emax s m e l) = true.
Proof.
  intros Hm He.
  destruct (binary_round_aux_eq s m e l Hm) as (m1 & B1 & ->).
  pose proof (round_canonical m e m1 Hm He B1) as Hc. cbv zeta in Hc.
  destruct (m1 / 2 ^ excess m1 (e + excess m e)) as [|p|p] eqn:E; trivial.
  destruct (_ <=? _) eqn:L; trivial.
  simpl. unfold bounded, canonical_mantissa.
  rewrite L, andb_true_r. apply Z.eqb_eq.
  apply (Hc ltac:(lia)).
Qed.

End Validity.

(** ** The quotient of two integers *)

Section Quotient.

Import RoundingSpec SignSpec.
Local Open Scope Z_scope.

Local Abbreviation emin := (SpecFloat.emin prec emax).
Local Abbreviation fexp := (SpecFloat.fexp prec emax).

Lemma pow2_lt_inv x y : 0 <= y -> 2 ^ x < 2 ^ y -> x < y.
Proof.
  intros Hy H. destruct (Z.lt_ge_cases x y) as [|Hge]; trivial.
  assert (2 ^ y <= 2 ^ x) by (apply Z.pow_le_mono_r; lia). lia.
Qed.

(** The division core hands the rounding an exponent that is not above
    the one of the format, and a quotient that is not zero when the
    divisor is below [2 ^ 1000]. *)
Lemma SFdiv_core_binary_canonical a b :
  0 < a -> 0 < b ->
  let '(q, e, l) := SFdiv_core_binary prec emax a 0 b 0 in
  0 <= q /\ emin <= e /\ e <= fexp (Zdigits2 q + e) /\
  (Zdigits2 b <= 1000 -> 0 < q).
Proof.
  intros Ha Hb. unfold SFdiv_core_binary.
  assert (P53 : prec = 53) by reflexivity.
  assert (E1024 : emax = 1024) by reflexivity.
  pose proof (Zdigits2_bounds a Ha) as [Halo Hahi].
  pose proof (Zdigits2_bounds b Hb) as [Hblo Hbhi].
  pose proof (Zdigits2_pos a Ha) as Hda.
  pose proof (Zdigits2_pos b Hb) as Hdb.
  set (d1 := Zdigits2 a) in *. set (d2 := Zdigits2 b) in *.
  set (e := Z.min _ _).
  assert (He : e = Z.min (Z.max (d1 - d2 - prec) emin) 0).
  { subst e. unfold SpecFloat.fexp. f_equal. f_equal. lia. }
  clearbody e.
  set (m' := match 0 - 0 - e with Z.pos _ => _ | _ => _ end).
  assert (Hm' : m' = a * 2 ^ (- e)).
  { subst m'. destruct (0 - 0 - e) as [|p|p] eqn:E; try lia.
    - replace (- e) with 0 by lia. simpl. lia.
    - rewrite Z.shiftl_mul_pow2 by lia. f_equal. f_equal. lia. }
  clearbody m'.
  assert (Hs : 0 <= - e) by lia.
  assert (H2 : 0 < 2 ^ (- e)) by (apply Z.pow_pos_nonneg; lia).
  (* [2 ^ (d1 - 1 - e) <= m'] *)
  assert (Hlo : 2 ^ (d1 - 1 + - e) <= m').
  { rewrite Hm', Z.pow_add_r by lia. apply Z.mul_le_mono_nonneg_r; lia. }
  pose proof (Z.div_eucl_eq m' b ltac:(lia)) as Heq.
  pose proof (Z.mod_pos_bound m' b Hb) as Hr.
  unfold Z.modulo in Hr.
  destruct (Z.div_eucl m' b) as [q r].
  assert (Hq : 0 <= q) by nia.
  split; [trivial|]. split; [unfold SpecFloat.emin in *; lia|].
  assert (Hqpos : d2 <= d1 - 1 + - e -> 0 < q).
  { intros Hk.
    assert (2 ^ d2 <= 2 ^ (d1 - 1 + - e)) by (apply Z.pow_le_mono_r; lia).
    destruct (Z.eq_dec q 0) as [->|]; lia. }
  split.
  - destruct (Z.eq_dec q 0) as [->|Hq0].
    + (* the quotient is zero: the exponent is the least one *)
      simpl Zdigits2.
      assert (d1 - 1 + - e < d2).
      { apply pow2_lt_inv; lia. }
      unfold SpecFloat.fexp, SpecFloat.emin in *. lia.
    + assert (Hdq : d1 - d2 <= Zdigits2 q + e).
      { pose proof (Zdigits2_pos q ltac:(lia)) as Hdq.
        pose proof (Zdigits2_bounds q ltac:(lia)) as [_ Hqhi].
        destruct (Z.le_gt_cases (d1 - 1 + - e - d2) 0) as [|Hk]; [lia|].
        (* [(q + 1) * b > m'], hence [2 ^ (digits q) * 2 ^ d2 > 2 ^ (d1 - 1 - e)] *)
        assert (m' < (q + 1) * b) by nia.
        assert (q + 1 <= 2 ^ Zdigits2 q) by lia.
        assert (2 ^ (d1 - 1 + - e) < 2 ^ Zdigits2 q * 2 ^ d2) by nia.
        rewrite <- Z.pow_add_r in * by lia.
        assert (d1 - 1 + - e < Zdigits2 q + d2) by (apply pow2_lt_inv; lia).
        lia. }
      unfold SpecFloat.fexp, SpecFloat.emin in *. lia.
  - intros Hb1000. apply Hqpos.
    unfold SpecFloat.emin in *. lia.
Qed.

Lemma Ok_inj {A} (x y : A) : Ok x = Ok y -> x = y.
Proof. congruence. Qed.

(** What [truediv] returns is the float of the rounded quotient. *)
Lemma truediv_Prim2SF a b r :
  a <> 0 -> b <> 0 -> truediv a b = Ok r ->
  let '(q, e, l) := SFdiv_core_binary prec emax (Z.abs a) 0 (Z.abs b) 0 in
  Prim2SF r = binary_round_aux prec emax (xorb (a <? 0) (b <? 0)) q e l.
Proof.
  intros Ha Hb. unfold truediv.
  pose proof (SFdiv_core_binary_canonical (Z.abs a) (Z.abs b)
                ltac:(lia) ltac:(lia)) as H.
  destruct b as [|b|b]; try contradiction;
    (destruct a as [|a|a]; try contradiction);
    destruct (SFdiv_core_binary prec emax _ 0 _ 0) as [[q e] l];
    destruct H as (Hq & _ & He & _);
    match goal with
    | |- context [binary_round_aux prec emax ?s q e l] =>
        pose proof (binary_round_aux_valid s q e l Hq He) as Hv;
        destruct (binary_round_aux prec emax s q e l) eqn:E
    end;
    cbv beta iota; try discriminate;
    intros H; apply Ok_inj in H; subst r;
    now apply Prim2SF_SF2Prim.
Qed.

(** The quotient of a negative by a positive integer below [2 ^ 1000]
    is below zero. *)
Lemma truediv_negative a b r :
  a < 0 -> 0 < b < 2 ^ 1000 -> truediv a b = Ok r -> (r <? 0)%float = true.
Proof.
  intros Ha Hb Hr.
  pose proof (truediv_Prim2SF a b r ltac:(lia) ltac:(lia) Hr) as Hp.
  pose proof (SFdiv_core_binary_canonical (Z.abs a) (Z.abs b)
                ltac:(lia) ltac:(lia)) as H.
  destruct (SFdiv_core_binary prec emax _ 0 _ 0) as [[q e] l].
  destruct H as (Hq & He & _ & Hpos).
  assert (Hd : Zdigits2 (Z.abs b) <= 1000).
  { rewrite Z.abs_eq by lia.
    pose proof (Zdigits2_bounds b ltac:(lia)) as [Hlo _].
    destruct (Z.le_gt_cases (Zdigits2 b) 1000) as [|Hgt]; trivial.
    assert (2 ^ 1000 <= 2 ^ (Zdigits2 b - 1)) by (apply Z.pow_le_mono_r; lia).
    lia. }
  specialize (Hpos Hd).
  replace (xorb (a <? 0) (b <? 0)) with true in Hp.
  2:{ destruct (Z.ltb_spec a 0), (Z.ltb_spec b 0); trivial; lia. }
  pose proof (binary_round_aux_sign true q e l Hq) as Hs.
  pose proof (binary_round_aux_nonzero true q e l Hpos He) as Hn.
  rewrite ltb_spec, Hp. change (Prim2SF 0) with (S754_zero false).
  now destruct (binary_round_aux prec emax true q e l) as [[]|[]| |[] ? ?].
Qed.

(** The quotient of two positive integers, the divisor below
    [2 ^ 1000], is above zero. *)
Lemma truediv_positive a b r :
  0 < a -> 0 < b < 2 ^ 1000 -> truediv a b = Ok r -> (0 <? r)%float = true.
Proof.
  intros Ha Hb Hr.
  pose proof (truediv_Prim2SF a b r ltac:(lia) ltac:(lia) Hr) as Hp.
  pose proof (SFdiv_core_binary_canonical (Z.abs a) (Z.abs b)
                ltac:(lia) ltac:(lia)) as H.
  destruct (SFdiv_core_binary prec emax _ 0 _ 0) as [[q e] l].
  destruct H as (Hq & He & _ & Hpos).
  assert (Hd : Zdigits2 (Z.abs b) <= 1000).
  { rewrite Z.abs_eq by lia.
    pose proof (Zdigits2_bounds b ltac:(lia)) as [Hlo _].
    destruct (Z.le_gt_cases (Zdigits2 b) 1000) as [|Hgt]; trivial.
    assert (2 ^ 1000 <= 2 ^ (Zdigits2 b - 1)) by (apply Z.pow_le_mono_r; lia).
    lia. }
  specialize (Hpos Hd).
  replace (xorb (a <? 0) (b <? 0)) with false in Hp.
  2:{ destruct (Z.ltb_spec a 0), (Z.ltb_spec b 0); trivial; lia. }
  pose proof (binary_round_aux_sign false q e l Hq) as Hs.
  pose proof (binary_round_aux_nonzero false q e l Hpos He) as Hn.
  rewrite ltb_spec, Hp. change (Prim2SF 0) with (S754_zero false).
  now destruct (binary_round_aux prec emax false q e l) as [[]|[]| |[] ? ?].
Qed.

End Quotient.

(** ** The difference of two ordered floats *)

Section Ordered.

Import RoundingSpec SignSpec.
Local Open Scope Z_scope.

Lemma is_finite_finite x : is_finite x = true -> finite (Prim2SF x) = true.
Proof.
  unfold is_finite, is_infinity. rewrite negb_true_iff, orb_false_iff.
  intros [Hn Hi]. apply is_nan_false in Hn.
  rewrite FloatAxioms.eqb_spec, abs_spec in Hi.
  change (Prim2SF infinity) with (S754_infinity false) in Hi.
  destruct (Prim2SF x) as [s|s| |s m e]; trivial; [discriminate|contradiction].
Qed.

Lemma SFleb_zero_at_least_zero x :
  at_least_zero x = true -> SFleb (S754_zero false) x = true.
Proof. destruct x as [[]|[]| |[] m e]; simpl; trivial. Qed.

Lemma binary_normalize_at_least_zero m e :
  0 <= m -> at_least_zero (binary_normalize prec emax m e false) = true.
Proof.
  intros H. pose proof (binary_normalize_sign m e H) as Hs.
  now destruct (binary_normalize prec emax m e false) as [[]|[]| |[] ? ?].
Qed.

(** Of two floats of the format, the one with the smaller exponent has
    the smaller mantissa once they are aligned. *)
Lemma aligned_lt mx ex my ey :
  bounded prec emax mx ex = true ->
  bounded prec emax my ey = true ->
  ex < ey ->
  Z.pos mx * 2 ^ (ex - Z.min ex ey) < Z.pos my * 2 ^ (ey - Z.min ex ey).
Proof.
  intros Hx Hy Hlt.
  destruct (bounded_inv _ _ Hx) as [Hcx _].
  destruct (bounded_inv _ _ Hy) as [Hcy _].
  assert (P53 : prec = 53) by reflexivity.
  pose proof (Zdigits2_bounds (Z.pos mx) ltac:(lia)) as [_ Hxhi].
  pose proof (Zdigits2_bounds (Z.pos my) ltac:(lia)) as [Hylo _].
  simpl Zdigits2 in *.
  set (dx := Z.pos (digits2_pos mx)) in *.
  set (dy := Z.pos (digits2_pos my)) in *.
  assert (Hd : dx <= 53 /\ dy = 53).
  { unfold SpecFloat.fexp, SpecFloat.emin in *. lia. }
  replace (Z.min ex ey) with ex by lia.
  rewrite Z.sub_diag, Z.mul_1_r.
  assert (2 ^ dx <= 2 ^ 53) by (apply Z.pow_le_mono_r; lia).
  assert (H2 : 2 <= 2 ^ (ey - ex)).
  { change 2 with (2 ^ 1) at 1. apply Z.pow_le_mono_r; lia. }
  replace (dy - 1) with 52 in Hylo by lia.
  change (2 ^ 53) with (2 ^ 52 * 2) in *.
  nia.
Qed.

(** The difference of two finite floats in this order is at or above
    zero. *)
Lemma SFsub_at_least_zero x y :
  valid_binary x = true -> valid_binary y = true ->
  finite x = true -> finite y = true ->
  SFleb y x = true ->
  at_least_zero (SFsub prec emax x y) = true.
Proof.
  intros Hx Hy Fx Fy Hle.
  destruct x as [sx|sx| |sx mx ex], y as [sy|sy| |sy my ey];
    try discriminate;
    try (now destruct sx, sy); try (now destruct sx); try (now destruct sy).
  simpl in Hx, Hy. cbn [SFsub].
  rewrite !shl_align_fst by lia.
  apply binary_normalize_at_least_zero.
  pose proof (aligned_lt mx ex my ey Hx Hy) as Hxy.
  pose proof (aligned_lt my ey mx ex Hy Hx) as Hyx.
  rewrite (Z.min_comm ey ex) in Hyx.
  assert (HX : 0 < Z.pos mx * 2 ^ (ex - Z.min ex ey))
    by (apply Z.mul_pos_pos; [|apply Z.pow_pos_nonneg]; lia).
  assert (HY : 0 < Z.pos my * 2 ^ (ey - Z.min ex ey))
    by (apply Z.mul_pos_pos; [|apply Z.pow_pos_nonneg]; lia).
  unfold SFleb, SFcompare in Hle.
  destruct sx, sy; cbn [cond_Zopp]; try discriminate; try lia.
  - (* both negative: the exponents decide in the reverse order *)
    destruct (Z.compare_spec ey ex) as [He|He|He]; try discriminate;
      [|specialize (Hxy He); lia].
    subst ey. rewrite Z.min_id, Z.sub_diag, !Z.mul_1_r.
    fold (Pos.compare my mx) in Hle.
    destruct (Pos.compare_spec my mx) as [Hm|Hm|Hm]; try discriminate; lia.
  - destruct (Z.compare_spec ey ex) as [He|He|He]; try discriminate;
      [|specialize (Hyx He); lia].
    subst ey. rewrite Z.min_id, Z.sub_diag, !Z.mul_1_r.
    fold (Pos.compare my mx) in Hle.
    destruct (Pos.compare_spec my mx) as [Hm|Hm|Hm]; try discriminate; lia.
Qed.

Lemma SFmul_at_least_zero x m e :
  at_least_zero x = true ->
  at_least_zero (SFmul prec emax x (S754_finite false m e)) = true.
Proof.
  destruct x as [[]|[]| |[] mx ex]; try discriminate; try reflexivity.
  intros _. cbn [SFmul xorb].
  pose proof (binary_round_aux_sign false (Z.pos (mx * m)) (ex + e) loc_Exact
                ltac:(lia)) as Hs.
  now destruct (binary_round_aux prec emax false _ _ _) as [[]|[]| |[] ? ?].
Qed.

(** The time between two finite clock readings in this order, in
    milliseconds, is at or above zero. *)
Lemma elapsed_ms_nonneg start_time end_time :
  is_finite start_time = true -> is_finite end_time = true ->
  (start_time <=? end_time)%float = true ->
  (0 <=? (end_time - start_time) * 1000)%float = true.
Proof.
  intros Fs Fe Hle.
  rewrite leb_spec in Hle.
  rewrite leb_spec, mul_spec, sub_spec.
  change (Prim2SF 0) with (S754_zero false).
  change (Prim2SF 1000) with (S754_finite false 8796093022208000 (-43)).
  apply SFleb_zero_at_least_zero, SFmul_at_least_zero, SFsub_at_least_zero;
    auto using Prim2SF_valid, is_finite_finite.
Qed.

End Ordered.

(** * Sums of floats *)

Section Zeros.

Import Predictor StatsSpec.

Lemma zero_eqb x b : Prim2SF x = S754_zero b -> (x =? 0)%float = true.
Proof.
  intros H. rewrite FloatAxioms.eqb_spec, H. now destruct b.
Qed.

(** [-0.0] is neutral on the left, also for the sign of a zero. *)
Lemma neg_zero_add x : (neg_zero + x)%float = x.
Proof.
  apply Prim2SF_inj. rewrite add_spec.
  change (Prim2SF neg_zero) with (S754_zero true).
  destruct (Prim2SF x) as [[|]| | |]; reflexivity.
Qed.

Lemma same_number_refl x : same_number x x.
Proof. now left. Qed.

Lemma same_number_sym x y : same_number x y -> same_number y x.
Proof. intros [->|[Hx Hy]]; [now left|now right]. Qed.

Lemma same_number_trans x y z :
  same_number x y -> same_number y z -> same_number x z.
Proof.
  intros [->|[Hx Hy]] [<-|[Hy' Hz]]; try (now left); try (now right).
Qed.

(** A zero of either sign is neutral, up to the sign of a zero. *)
Lemma zero_add z x : (z =? 0)%float = true -> same_number (z + x) x.
Proof.
  intros Hz. destruct (eqb_zero _ Hz) as [b Hb].
  assert (H : Prim2SF (z + x) = SFadd prec emax (S754_zero b) (Prim2SF x))
    by now rewrite add_spec, Hb.
  destruct (Prim2SF x) as [b'| | |] eqn:Hx.
  - right. split; [|now apply (zero_eqb _ b')].
    simpl in H. destruct b, b'; eapply zero_eqb; exact H.
  - left. apply Prim2SF_inj. now rewrite H, Hx.
  - left. apply Prim2SF_inj. now rewrite H, Hx.
  - left. apply Prim2SF_inj. now rewrite H, Hx.
Qed.

Lemma add_zero x z : (z =? 0)%float = true -> same_number (x + z) x.
Proof.
  intros Hz. destruct (eqb_zero _ Hz) as [b Hb].
  assert (H : Prim2SF (x + z) = SFadd prec emax (Prim2SF x) (S754_zero b))
    by now rewrite add_spec, Hb.
  destruct (Prim2SF x) as [b'| | |] eqn:Hx.
  - right. split; [|now apply (zero_eqb _ b')].
    simpl in H. destruct b, b'; eapply zero_eqb; exact H.
  - left. apply Prim2SF_inj. now rewrite H, Hx.
  - left. apply Prim2SF_inj. now rewrite H, Hx.
  - left. apply Prim2SF_inj. now rewrite H, Hx.
Qed.

Lemma add_same_number x x' y y' :
  same_number x x' -> same_number y y' -> same_number (x + y) (x' + y').
Proof.
  intros [->|[Hx Hx']] [->|[Hy Hy']].
  - apply same_number_refl.
  - eapply same_number_trans; [now apply add_zero|].
    apply same_number_sym. now apply add_zero.
  - eapply same_number_trans; [now apply zero_add|].
    apply same_number_sym. now apply zero_add.
  - eapply same_number_trans; [now apply zero_add|].
    eapply same_number_trans; [right; split; eassumption|].
    apply same_number_sym. now apply zero_add.
Qed.

End Zeros.

(** numpy's sum adds each value of the array once. *)
Section PairwiseSum.

Import Predictor StatsSpec.

Lemma fold_left_adds_up a : forall l t,
  adds_up l t -> adds_up (l ++ a) (fold_left PrimFloat.add a t).
Proof.
  induction a as [|x a IH]; intros l t H; simpl.
  - now rewrite app_nil_r.
  - replace (l ++ x :: a) with ((l ++ [x]) ++ a)
      by (now rewrite <- app_assoc).
    apply IH. apply both; [exact H|apply one].
Qed.

Lemma fold_left_neg_zero a :
  a <> [] -> adds_up a (fold_left PrimFloat.add a neg_zero).
Proof.
  destruct a as [|x a]; [contradiction|]. intros _. simpl.
  rewrite neg_zero_add. apply (fold_left_adds_up a [x] x (one x)).
Qed.

Lemma unrolled_short r0 r1 r2 r3 r4 r5 r6 r7 a :
  (List.length a < 8)%nat ->
  np.unrolled r0 r1 r2 r3 r4 r5 r6 r7 a =
  fold_left PrimFloat.add a
    (((r0 + r1) + (r2 + r3)) + ((r4 + r5) + (r6 + r7)))%float.
Proof.
  intros H.
  do 8 (destruct a as [|? a]; [reflexivity|]).
  simpl in H. lia.
Qed.

(** The values of a group of eight, each behind the values of its
    partial sum, are those of the partial sums followed by the group. *)
Lemma perm_lanes (ls : list (list float)) : forall xs R,
  List.length ls = List.length xs ->
  Permutation
    (List.concat (map (fun p => fst p ++ [snd p]) (combine ls xs)) ++ R)
    (List.concat ls ++ xs ++ R).
Proof.
  induction ls as [|l ls IH]; intros [|x xs] R H; try discriminate H.
  - reflexivity.
  - simpl. rewrite <- !app_assoc. simpl.
    apply Permutation_app_head.
    etransitivity; [apply perm_skip, IH; now injection H|].
    apply Permutation_middle.
Qed.

Lemma unrolled_adds_up n : forall a,
  (List.length a <= n)%nat ->
  forall r0 r1 r2 r3 r4 r5 r6 r7 l0 l1 l2 l3 l4 l5 l6 l7,
    adds_up l0 r0 -> adds_up l1 r1 -> adds_up l2 r2 -> adds_up l3 r3 ->
    adds_up l4 r4 -> adds_up l5 r5 -> adds_up l6 r6 -> adds_up l7 r7 ->
    adds_up (List.concat [l0; l1; l2; l3; l4; l5; l6; l7] ++ a)
      (np.unrolled r0 r1 r2 r3 r4 r5 r6 r7 a).
Proof.
  assert (Hshort : forall a,
    (List.length a < 8)%nat ->
    forall r0 r1 r2 r3 r4 r5 r6 r7 l0 l1 l2 l3 l4 l5 l6 l7,
      adds_up l0 r0 -> adds_up l1 r1 -> adds_up l2 r2 -> adds_up l3 r3 ->
      adds_up l4 r4 -> adds_up l5 r5 -> adds_up l6 r6 -> adds_up l7 r7 ->
      adds_up (List.concat [l0; l1; l2; l3; l4; l5; l6; l7] ++ a)
        (np.unrolled r0 r1 r2 r3 r4 r5 r6 r7 a)).
  { intros a Ha r0 r1 r2 r3 r4 r5 r6 r7 l0 l1 l2 l3 l4 l5 l6 l7
      H0 H1 H2 H3 H4 H5 H6 H7.
    rewrite unrolled_short by exact Ha.
    apply fold_left_adds_up.
    replace (List.concat [l0; l1; l2; l3; l4; l5; l6; l7])
      with (((l0 ++ l1) ++ (l2 ++ l3)) ++ ((l4 ++ l5) ++ (l6 ++ l7)))
      by (simpl; rewrite app_nil_r, <- !app_assoc; reflexivity).
    repeat apply both; assumption. }
  induction n as [|n IH]; intros a Hn.
  - apply Hshort. lia.
  - destruct (Nat.ltb_spec (List.length a) 8) as [Ha|Ha];
      [now apply Hshort|].
    intros r0 r1 r2 r3 r4 r5 r6 r7 l0 l1 l2 l3 l4 l5 l6 l7
      H0 H1 H2 H3 H4 H5 H6 H7.
    destruct a as [|x0 [|x1 [|x2 [|x3 [|x4 [|x5 [|x6 [|x7 a]]]]]]]];
      try (simpl in Ha; lia).
    cbn [np.unrolled].
    eapply reordered;
      [apply (perm_lanes [l0; l1; l2; l3; l4; l5; l6; l7]
                [x0; x1; x2; x3; x4; x5; x6; x7] a eq_refl)|].
    apply IH; [simpl in Hn; lia| | | | | | | |];
      (apply both; [assumption|apply one]).
Qed.

Lemma pairwise_sum_eq depth a :
  np.pairwise_sum depth a =
  let n := List.length a in
  if (n <? 8)%nat then fold_left PrimFloat.add a neg_zero
  else if (n <=? np.PW_BLOCKSIZE)%nat then
    match a with
    | x0 :: x1 :: x2 :: x3 :: x4 :: x5 :: x6 :: x7 :: a' =>
        np.unrolled x0 x1 x2 x3 x4 x5 x6 x7 a'
    | _ => fold_left PrimFloat.add a neg_zero
    end
  else
    match depth with
    | S depth' =>
        let n2 := ((n / 2) - (n / 2) mod 8)%nat in
        (np.pairwise_sum depth' (firstn n2 a)
         + np.pairwise_sum depth' (skipn n2 a))%float
    | O => nan
    end.
Proof. destruct depth; reflexivity. Qed.

(** Where an array of more than [PW_BLOCKSIZE] values is cut in two. *)
Lemma halves n :
  (np.PW_BLOCKSIZE < n)%nat ->
  (0 < (n / 2) - (n / 2) mod 8 < n)%nat.
Proof.
  unfold np.PW_BLOCKSIZE. intros H.
  pose proof (Nat.div_mod_eq n 2).
  pose proof (Nat.mod_upper_bound n 2).
  pose proof (Nat.mod_upper_bound (n / 2) 8).
  lia.
Qed.

Lemma pairwise_sum_adds_up depth : forall a,
  a <> [] -> (List.length a <= depth)%nat ->
  adds_up a (np.pairwise_sum depth a).
Proof.
  induction depth as [|depth IH]; intros a Ha Hd.
  - destruct a; [contradiction|simpl in Hd; lia].
  - rewrite pairwise_sum_eq. cbv zeta.
    destruct (Nat.ltb_spec (List.length a) 8) as [H8|H8];
      [now apply fold_left_neg_zero|].
    destruct (Nat.leb_spec (List.length a) np.PW_BLOCKSIZE) as [Hb|Hb].
    + destruct a as [|x0 [|x1 [|x2 [|x3 [|x4 [|x5 [|x6 [|x7 a]]]]]]]];
        try (simpl in H8; lia).
      apply (unrolled_adds_up _ a (le_n _) x0 x1 x2 x3 x4 x5 x6 x7
               [x0] [x1] [x2] [x3] [x4] [x5] [x6] [x7]); apply one.
    + destruct (halves _ Hb) as [Hl Hr].
      rewrite <- (firstn_skipn
                    (List.length a / 2 - (List.length a / 2) mod 8) a)
        at 1.
      apply both; apply IH.
      * intros H. apply (f_equal (@List.length _)) in H.
        rewrite length_firstn in H. cbn [List.length] in H. lia.
      * rewrite length_firstn. lia.
      * intros H. apply (f_equal (@List.length _)) in H.
        rewrite length_skipn in H. cbn [List.length] in H. lia.
      * rewrite length_skipn. lia.
Qed.

(** The depth does not matter once it is the length of the array. *)
Lemma pairwise_sum_depth depth : forall depth' a,
  (List.length a <= depth)%nat -> (List.length a <= depth')%nat ->
  np.pairwise_sum depth a = np.pairwise_sum depth' a.
Proof.
  induction depth as [|depth IH]; intros depth' a Hd Hd'.
  - destruct a; [|simpl in Hd; lia]. now destruct depth'.
  - rewrite (pairwise_sum_eq (S depth)), (pairwise_sum_eq depth').
    cbv zeta.
    destruct (List.length a <? 8)%nat; trivial.
    destruct (Nat.leb_spec (List.length a) np.PW_BLOCKSIZE) as [Hb|Hb];
      trivial.
    destruct (halves _ Hb) as [Hl Hr].
    destruct depth' as [|depth']; [lia|].
    f_equal; apply IH;
      rewrite ?length_firstn, ?length_skipn; lia.
Qed.

Lemma sum_adds_up a : a <> [] -> adds_up a (np.sum a).
Proof.
  intros Ha. unfold np.sum. rewrite neg_zero_add.
  now apply pairwise_sum_adds_up.
Qed.

End PairwiseSum.

(** The missing values, which pandas replaces by 0 before it sums, do not
    count. *)
Section MissingValues.

Import Predictor StatsSpec.

Lemma putmask_isna (f : float -> float) s :
  np.putmask (map f s) (Series.isna s) 0 =
  map (fun x => if is_nan x then 0%float else f x) s.
Proof.
  induction s as [|x s IH]; simpl; [reflexivity|]. now rewrite IH.
Qed.

Lemma putmask_values s :
  np.putmask s (Series.isna s) 0 =
  map (fun x => if is_nan x then 0%float else x) s.
Proof.
  rewrite <- (map_id s) at 1. apply (putmask_isna (fun x => x)).
Qed.

Lemma putmask_sqr avg s :
  np.putmask
    (map (fun x => ((avg - x) * (avg - x))%float)
       (np.putmask s (Series.isna s) 0))
    (Series.isna s) 0 =
  map (fun x => if is_nan x then 0%float else squared_deviation avg x) s.
Proof.
  rewrite putmask_values, map_map, putmask_isna.
  apply map_ext. intros x. unfold squared_deviation.
  destruct (is_nan x); [reflexivity|apply sq_sub_sym].
Qed.

Lemma Permutation_non_missing s s' :
  Permutation s s' -> Permutation (non_missing s) (non_missing s').
Proof.
  unfold non_missing.
  induction 1 as [|x s s' _ IH|x y s|s s' s'' _ IH _ IH']; simpl.
  - constructor.
  - destruct (negb (is_nan x)); [now constructor|exact IH].
  - destruct (negb (is_nan x)), (negb (is_nan y));
      try reflexivity. apply perm_swap.
  - now transitivity (filter (fun x => negb (is_nan x)) s').
Qed.

Lemma non_missing_app s s' :
  non_missing (s ++ s') = non_missing s ++ non_missing s'.
Proof. apply filter_app. Qed.

(** A sum over an array in which 0 stands for the missing values is a
    sum over the values that are not missing, up to the sign of a
    zero. *)
Lemma adds_up_non_missing (f : float -> float) l v :
  adds_up l v ->
  forall s,
    l = map (fun x => if is_nan x then 0%float else f x) s ->
    (non_missing s = [] /\ v = 0%float) \/
    (exists v', adds_up (map f (non_missing s)) v' /\ same_number v v').
Proof.
  induction 1 as [x|l1 l2 t1 t2 _ IH1 _ IH2|l l' t Hp _ IH]; intros s Hs.
  - destruct s as [|y [|z s]]; try discriminate Hs.
    injection Hs as ->. unfold non_missing. simpl.
    destruct (is_nan y); simpl.
    + now left.
    + right. exists (f y). split; [apply one|apply same_number_refl].
  - symmetry in Hs. apply map_eq_app in Hs.
    destruct Hs as (s1 & s2 & -> & H1 & H2).
    rewrite non_missing_app, map_app.
    destruct (IH1 s1 (eq_sym H1)) as [[E1 ->]|(v1 & A1 & S1)],
             (IH2 s2 (eq_sym H2)) as [[E2 ->]|(v2 & A2 & S2)].
    + left. rewrite E1, E2. now split.
    + right. exists v2. rewrite E1. split; [exact A2|].
      eapply same_number_trans; [now apply zero_add|exact S2].
    + right. exists v1. rewrite E2, app_nil_r. split; [exact A1|].
      eapply same_number_trans; [now apply add_zero|exact S1].
    + right. exists (v1 + v2)%float. split; [now apply both|].
      now apply add_same_number.
  - subst l'. apply Permutation_map_inv in Hp.
    destruct Hp as (s' & -> & Hp).
    pose proof (Permutation_non_missing _ _ Hp) as Hn.
    destruct (IH s' eq_refl) as [[E ->]|(v' & A & S)].
    + left. split; [|reflexivity]. rewrite E in Hn.
      apply Permutation_sym, Permutation_nil in Hn. exact Hn.
    + right. exists v'. split; [|exact S].
      apply (reordered (map f (non_missing s'))); [|exact A].
      apply Permutation_map, Permutation_sym, Hn.
Qed.

Lemma sum_total (f : float -> float) s :
  non_missing s <> [] ->
  total (map f (non_missing s))
    (np.sum (map (fun x => if is_nan x then 0%float else f x) s)).
Proof.
  intros Hn.
  assert (Hs : map (fun x => if is_nan x then 0%float else f x) s <> []).
  { destruct s; [now elim Hn|discriminate]. }
  destruct (adds_up_non_missing f _ _ (sum_adds_up _ Hs) s eq_refl)
    as [[E _]|H]; [contradiction|exact H].
Qed.

Lemma count_N s : Series.count s = N (non_missing s).
Proof. reflexivity. Qed.

Lemma N_nonempty (values : list float) :
  (1 <= N values)%Z -> values <> [].
Proof. destruct values; [unfold N; simpl; lia|discriminate]. Qed.

Lemma mean_arithmetic_mean s :
  (1 <= N (non_missing s))%Z ->
  arithmetic_mean (non_missing s) (Series.mean s).
Proof.
  intros H. unfold Series.mean. cbv zeta. rewrite count_N.
  destruct (Z.eqb_spec (N (non_missing s)) 0) as [E|_]; [lia|].
  exists (np.sum (np.putmask s (Series.isna s) 0)).
  split; [|reflexivity].
  rewrite putmask_values, <- (map_id (non_missing s)).
  apply (sum_total (fun x => x)). now apply N_nonempty.
Qed.

Lemma mean_none s : N (non_missing s) = 0%Z -> Series.mean s = nan.
Proof.
  intros H. unfold Series.mean. cbv zeta. now rewrite count_N, H.
Qed.

Lemma std_sample_std s :
  (2 <= N (non_missing s))%Z ->
  sample_std (non_missing s) (Series.std s).
Proof.
  intros H. unfold Series.std. cbv zeta. rewrite count_N.
  destruct (Z.leb_spec (N (non_missing s)) 1) as [E|_]; [lia|].
  exists (Series.mean s).
  exists (np.sum
            (map (fun x => if is_nan x then 0%float
                           else squared_deviation (Series.mean s) x) s)).
  split; [apply mean_arithmetic_mean; lia|].
  split; [apply sum_total, N_nonempty; lia|].
  rewrite <- putmask_sqr. unfold Series.mean. cbv zeta. rewrite count_N.
  destruct (Z.eqb_spec (N (non_missing s)) 0) as [E|_]; [lia|].
  reflexivity.
Qed.

Lemma std_few s : (N (non_missing s) <= 1)%Z -> Series.std s = nan.
Proof.
  intros H. unfold Series.std. cbv zeta. rewrite count_N.
  now destruct (Z.leb_spec (N (non_missing s)) 1) as [_|E]; [|lia].
Qed.

End MissingValues.

(** * Properties of the collector *)

Section CollectorProperties.

Import Collector CollectorSamples RateSpec.

Lemma write_to_influxdb_cases client now stats series :
  write_to_influxdb client now stats series = series \/
  exists l,
    invalid stats = false /\ latency stats = Some (Some l) /\
    write_to_influxdb client now stats series =
      series ++ [{| Point.download_speed := download_speed stats;
                    Point.upload_speed := upload_speed stats;
                    Point.packets_sent := packets_sent stats;
                    Point.packets_recv := packets_recv stats;
                    Point.errors_in := errors_in stats;
                    Point.errors_out := errors_out stats;
                    Point.latency := l;
                    Point.time := now |}].
Proof.
  unfold write_to_influxdb, getitem_latency.
  destruct (write_api client) as [[]|e]; simpl; auto.
  destruct (invalid stats) eqn:Hinv; auto.
  destruct (latency stats) as [[l|]|]; simpl; auto.
  destruct (write client) as [[]|e]; simpl; auto.
  right. exists l. auto.
Qed.

Lemma invalid_false stats :
  invalid stats = false ->
  (download_speed stats <? 0)%float = false /\
  (upload_speed stats <? 0)%float = false /\
  (packets_sent stats <? 0)%Z = false /\
  (packets_recv stats <? 0)%Z = false.
Proof.
  unfold invalid. intros H.
  repeat (apply orb_false_iff in H; destruct H as [H ?]).
  auto.
Qed.

Lemma write_to_influxdb_invariant client now stats series :
  Forall nonnegative_rates series ->
  Forall nonnegative_rates (write_to_influxdb client now stats series).
Proof.
  intros Hs.
  destruct (write_to_influxdb_cases client now stats series)
    as [-> | (l & Hinv & _ & ->)]; trivial.
  apply Forall_app; split; trivial.
  constructor; [|constructor].
  apply invalid_false in Hinv. split; simpl; tauto.
Qed.

Lemma iteration_invariant t series series' :
  Forall nonnegative_rates series ->
  iteration t series = Ok series' ->
  Forall nonnegative_rates series'.
Proof.
  unfold iteration. intros Hs.
  destruct (store_latency _ _) as [d|e]; simpl; [|discriminate].
  intros [= <-]. now apply write_to_influxdb_invariant.
Qed.

Lemma main_invariant ticks : forall series,
  Forall nonnegative_rates series ->
  Forall nonnegative_rates (fst (main ticks series)).
Proof.
  induction ticks as [|t ticks IH]; intros series Hs; simpl; trivial.
  destruct (iteration t series) as [series'|e] eqn:Hit; simpl; trivial.
  apply IH. eapply iteration_invariant; eauto.
Qed.

(** C1: a stats record with a negative download_speed, upload_speed,
    packets_sent or packets_recv leaves the network_metrics series as it
    was, whatever the store answers; hence every point that a run of the
    collector adds to a series of points with non-negative rates has
    non-negative rates as well. *)
Theorem negative_stats_never_persisted :
  (forall client now stats series,
      (download_speed stats <? 0)%float = true \/
      (upload_speed stats <? 0)%float = true \/
      (packets_sent stats < 0)%Z \/
      (packets_recv stats < 0)%Z ->
      write_to_influxdb client now stats series = series) /\
  (forall ticks series,
      Forall nonnegative_rates series ->
      Forall nonnegative_rates (fst (main ticks series))).
Proof.
  split; [|intros; now apply main_invariant].
  intros client now stats series H.
  assert (Hinv : invalid stats = true).
  { unfold invalid.
    destruct H as [H | [H | [H | H]]].
    - now rewrite H.
    - rewrite H. now rewrite orb_true_r.
    - apply Z.ltb_lt in H. rewrite H. now rewrite orb_true_r.
    - apply Z.ltb_lt in H. rewrite H. now rewrite !orb_true_r. }
  unfold write_to_influxdb.
  destruct (write_api client) as [[]|e]; simpl; trivial.
  now rewrite Hinv.
Qed.

Lemma negative_stats_never_persisted_witness :
  (exists d, store_latency (get_network_stats (first reset_tick) (second reset_tick))
               (get_latency (connect reset_tick)) = Ok d /\
             (upload_speed d <? 0)%float = true /\
             write_to_influxdb (client reset_tick) (now reset_tick) d [] = []) /\
  main [reset_tick] [] = ([], Looping).
Proof.
  split.
  - eexists. split; [reflexivity|]. split; [reflexivity|].
    apply (proj1 negative_stats_never_persisted).
    right; left. reflexivity.
  - reflexivity.
Defined.

(** C2 (what the code does where the claim says the tick is skipped): when
    one of the two counter reads of a tick fails, get_network_stats
    returns None, storing the latency into it raises TypeError before the
    guard on network_stats is reached, and main leaves its loop: nothing
    is written and the ticks that follow are never run. *)
Theorem sampler_failure_exits_main :
  forall t e ticks series,
    first t = Raise e \/ second t = Raise e ->
    get_network_stats (first t) (second t) = None /\
    main (t :: ticks) series = (series, Exited TypeError).
Proof.
  intros t e ticks series H.
  assert (Hn : get_network_stats (first t) (second t) = None).
  { unfold get_network_stats.
    destruct H as [-> | ->]; simpl; trivial.
    destruct (first t); reflexivity. }
  split; trivial.
  simpl. unfold iteration. now rewrite Hn.
Qed.

Lemma sampler_failure_exits_main_witness :
  main [sampler_failed_tick; good_tick] [] = ([], Exited TypeError) /\
  (exists p, main [good_tick] [] = ([p], Looping)).
Proof.
  split.
  - apply (sampler_failure_exits_main sampler_failed_tick OSError [good_tick] []).
    left. reflexivity.
  - eexists. reflexivity.
Defined.

(** C3 (what the code does where the claim has a record with the latency
    absent): in a tick whose sampling succeeds and whose latency probe
    fails, get_latency returns None, main hands it to the writer under
    the key latency, and the writer raises TypeError on float(None) and
    returns from its handler without writing: no point is persisted for
    the tick, whatever the rates are; the loop goes on to the next
    tick. *)
Theorem probe_failure_drops_tick :
  forall t e d ticks series,
    get_network_stats (first t) (second t) = Some d ->
    connect t = ConnectFailed e ->
    iteration t series = Ok series /\
    main (t :: ticks) series = main ticks series.
Proof.
  intros t e d ticks series Hd Hc.
  assert (Hit : iteration t series = Ok series).
  { unfold iteration. rewrite Hd, Hc. simpl.
    unfold write_to_influxdb.
    destruct (write_api (client t)) as [[]|]; simpl; trivial.
    destruct (invalid _); reflexivity. }
  split; trivial.
  simpl. now rewrite Hit.
Qed.

Lemma probe_failure_drops_tick_witness :
  (exists d, get_network_stats (first probe_failed_tick)
               (second probe_failed_tick) = Some d /\
             invalid d = false) /\
  iteration probe_failed_tick [] = Ok [] /\
  main [probe_failed_tick; good_tick] [] = main [good_tick] [].
Proof.
  split; [eexists; split; reflexivity|].
  eapply (probe_failure_drops_tick probe_failed_tick OSError _ [good_tick] []);
    reflexivity.
Defined.

(** C10 (the claim fails here): the stats record that main hands to the
    writer in a tick whose probe failed has none of the four tested
    fields below zero, and its latency is None; a store that accepts
    every write persists nothing for it. *)
Lemma stats_without_latency_not_persisted :
  exists d,
    get_network_stats (first probe_failed_tick) (second probe_failed_tick)
      = Some d /\
    let stats := setitem_latency d (get_latency (connect probe_failed_tick)) in
    (download_speed stats <? 0)%float = false /\
    (upload_speed stats <? 0)%float = false /\
    (0 <= packets_sent stats)%Z /\
    (0 <= packets_recv stats)%Z /\
    latency stats = Some None /\
    client probe_failed_tick = store_up /\
    write_to_influxdb store_up (now probe_failed_tick) stats [] = [].
Proof.
  eexists. split; [reflexivity|]. simpl.
  repeat split; lia.
Qed.

(** C10 (amended): the writer tests download_speed, upload_speed,
    packets_sent and packets_recv only: when none of the four is below
    zero, the latency is a number and the store accepts the write, the
    point is appended with errors_in, errors_out and latency exactly as
    they came, negative or not. *)
Theorem unchecked_fields_pass_unchanged :
  forall client now stats series l,
    write_api client = Ok tt ->
    write client = Ok tt ->
    (download_speed stats <? 0)%float = false ->
    (upload_speed stats <? 0)%float = false ->
    (0 <= packets_sent stats)%Z ->
    (0 <= packets_recv stats)%Z ->
    latency stats = Some (Some l) ->
    write_to_influxdb client now stats series =
      series ++ [{| Point.download_speed := download_speed stats;
                    Point.upload_speed := upload_speed stats;
                    Point.packets_sent := packets_sent stats;
                    Point.packets_recv := packets_recv stats;
                    Point.errors_in := errors_in stats;
                    Point.errors_out := errors_out stats;
                    Point.latency := l;
                    Point.time := now |}].
Proof.
  intros client now stats series l Ha Hw Hd Hu Hs Hr Hl.
  unfold write_to_influxdb, getitem_latency, invalid.
  rewrite Ha, Hw, Hd, Hu, Hl. simpl.
  apply Z.ltb_ge in Hs, Hr. now rewrite Hs, Hr.
Qed.

Lemma unchecked_fields_pass_unchanged_witness :
  exists p,
    write_to_influxdb store_up 1700000000 negative_errors_stats [] = [p] /\
    Point.errors_in p = (-3)%Z /\ Point.errors_out p = (-7)%Z /\
    Point.latency p = (-12.5)%float.
Proof.
  eexists. split.
  - apply (unchecked_fields_pass_unchanged store_up 1700000000
             negative_errors_stats [] (-12.5)%float);
      first [reflexivity | simpl; lia].
  - repeat split.
Defined.

Lemma mbps_interval delta :
  mbps delta interval = truediv (delta * 8) 1000000.
Proof.
  unfold mbps, interval. destruct (truediv (delta * 8) 1000000) as [x|e];
    cbn [bind Z.eqb]; trivial.
  change (of_int 1) with 1%float. now rewrite div_one.
Qed.

(** C8: from two counter reads one second apart the sampler returns
    upload_speed = (bytes_sent_2 - bytes_sent_1) * 8 / 1_000_000 / interval
    and download_speed likewise from bytes_recv, for the interval of one
    second that it sleeps between the reads; when the second reading of a
    counter is not below the first, the rate is not below zero; and the
    sampler does return a record for counters that fit in 64 bits. *)
Theorem sampler_rates :
  forall c c',
    (forall d,
        get_network_stats (Ok c) (Ok c') = Some d ->
        mbps (psutil.bytes_sent c' - psutil.bytes_sent c) interval
          = Ok (upload_speed d) /\
        mbps (psutil.bytes_recv c' - psutil.bytes_recv c) interval
          = Ok (download_speed d) /\
        ((psutil.bytes_sent c <= psutil.bytes_sent c')%Z ->
         (0 <=? upload_speed d)%float = true) /\
        ((psutil.bytes_recv c <= psutil.bytes_recv c')%Z ->
         (0 <=? download_speed d)%float = true)) /\
    ((0 <= psutil.bytes_sent c < 2 ^ 64)%Z ->
     (0 <= psutil.bytes_sent c' < 2 ^ 64)%Z ->
     (0 <= psutil.bytes_recv c < 2 ^ 64)%Z ->
     (0 <= psutil.bytes_recv c' < 2 ^ 64)%Z ->
     exists d, get_network_stats (Ok c) (Ok c') = Some d).
Proof.
  intros c c'. unfold get_network_stats. cbn [bind]. split.
  - intros d. rewrite !mbps_interval.
    destruct (truediv ((psutil.bytes_sent c' - psutil.bytes_sent c) * 8) 1000000)
      as [u|] eqn:Eu; cbn [bind]; [|discriminate].
    destruct (truediv ((psutil.bytes_recv c' - psutil.bytes_recv c) * 8) 1000000)
      as [v|] eqn:Ev; cbn [bind]; [|discriminate].
    intros [= <-]; cbn [upload_speed download_speed].
    repeat split; trivial; intros H.
    + eapply truediv_nonneg; [| |exact Eu]; lia.
    + eapply truediv_nonneg; [| |exact Ev]; lia.
  - intros Hs Hs' Hr Hr'.
    assert (B : (2 ^ 64 * 8 < 2 ^ 1023)%Z) by reflexivity.
    destruct (truediv_defined
                ((psutil.bytes_sent c' - psutil.bytes_sent c) * 8) 1000000)
      as [u ->]; [lia|lia|].
    destruct (truediv_defined
                ((psutil.bytes_recv c' - psutil.bytes_recv c) * 8) 1000000)
      as [v ->]; [lia|lia|].
    cbn [bind]. eexists. reflexivity.
Qed.

Lemma sampler_rates_witness :
  exists d,
    get_network_stats (first good_tick) (second good_tick) = Some d /\
    upload_speed d = 2%float /\ download_speed d = 6%float /\
    (0 <=? upload_speed d)%float = true.
Proof.
  eexists. split; [reflexivity|]. split; [reflexivity|]. split; [reflexivity|].
  refine (proj1 (proj2 (proj2 (proj1 (sampler_rates (counters 5000000 9000000)
                                (counters 5250000 9750000)) _ eq_refl))) _).
  simpl. lia.
Defined.

End CollectorProperties.

(** * Properties of the monitor *)

Section PredictorProperties.

Import Predictor HealthSpec StatsSpec PredictorSamples.

Lemma iloc_last_map {A B} (f : A -> B) (s : list A) :
  Series.iloc_last (map f s) =
  match Series.iloc_last s with
  | Ok x => Ok (f x)
  | Raise e => Raise e
  end.
Proof.
  induction s as [|x [|y s] IH]; trivial.
Qed.

Lemma iloc_last_nonempty {A} (s : list A) :
  s <> [] -> exists x, Series.iloc_last s = Ok x.
Proof.
  induction s as [|x [|y s] IH]; intros H.
  - contradiction.
  - now exists x.
  - destruct IH as [z Hz]; [discriminate|].
    exists z. exact Hz.
Qed.

Lemma iloc_last_app {A} (s : list A) (x : A) :
  Series.iloc_last (s ++ [x]) = Ok x.
Proof.
  induction s as [|y [|z s] IH]; trivial.
Qed.

(** The score and status that [analyze_server_health] computes, for the
    period it found. *)
Lemma analyze_server_health_eq self data stats t :
  Series.iloc_last (map Row._time data) = Ok t ->
  let is_peak := Py.contains (peak_hours self) (hour t) in
  let s := score self is_peak (current (Stats.upload_speed stats))
             (current (Stats.latency stats)) in
  analyze_server_health self data stats =
    Ok {| status := status_of_score s;
          health_score := s;
          is_peak_hour := is_peak |}.
Proof.
  intros Ht. unfold analyze_server_health. rewrite Ht. simpl.
  unfold score, upload_points, latency_points, status_of_score, cutoffs_for.
  destruct (Py.contains (peak_hours self) (hour t)); simpl;
    repeat match goal with
           | |- context [geb (current ?m) ?c] => destruct (geb (current m) c)
           | |- context [(current ?m <=? ?c)%float] =>
               destruct (current m <=? c)%float
           end; reflexivity.
Qed.

(** C4: on a non-empty window the health score is the sum of the upload
    part (0.4 at or above the optimal upload cutoff, else 0.2 at or above
    the warning cutoff, else 0.0) and of the latency part (0.6 at or below
    the optimal latency cutoff, else 0.3 at or below the warning cutoff,
    else 0.0), taken from the row of the table for the period, and the
    status follows the breakpoints 0.8, 0.5 and 0.3; with the peak row of
    the monitor's table, upload 0.80 and latency 25 score 1.0 (optimal),
    upload 0.40 and latency 90 score 0.0 (critical). *)
Theorem health_score_is_additive :
  (forall self data stats,
      data <> [] ->
      exists h,
        analyze_server_health self data stats = Ok h /\
        health_score h =
          (upload_points (fst (cutoffs_for self (is_peak_hour h)))
             (current (Stats.upload_speed stats))
           + latency_points (snd (cutoffs_for self (is_peak_hour h)))
               (current (Stats.latency stats)))%float /\
        status h = status_of_score (health_score h)) /\
  cutoffs_for thresholds true =
    ({| optimal := 0.75; warning := 0.50; critical := 0.25 |},
     {| optimal := 30; warning := 50; critical := 100 |}) /\
  analyze_server_health thresholds [record (at_ 14 0 0) 0.80 25]
    (currently 0.80 25) =
    Ok {| status := "optimal"; health_score := 1.0; is_peak_hour := true |} /\
  analyze_server_health thresholds [record (at_ 14 0 0) 0.40 90]
    (currently 0.40 90) =
    Ok {| status := "critical"; health_score := 0.0; is_peak_hour := true |}.
Proof.
  split; [|repeat split].
  intros self data stats Hne.
  destruct (iloc_last_nonempty (map Row._time data)) as [t Ht].
  { destruct data; [contradiction|discriminate]. }
  eexists. split; [apply (analyze_server_health_eq _ _ _ _ Ht)|].
  split; reflexivity.
Qed.

Lemma health_score_is_additive_witness :
  exists h,
    analyze_server_health thresholds [record (at_ 22 0 0) 0.80 25]
      (currently 0.80 25) = Ok h /\
    health_score h = (0.2 + 0.3)%float /\ status h = "good"%string.
Proof.
  destruct (proj1 health_score_is_additive thresholds
              [record (at_ 22 0 0) 0.80 25] (currently 0.80 25))
    as (h & Hh & Hs & Hst); [discriminate|].
  exists h. split; [exact Hh|].
  injection Hh as <-. split; reflexivity.
Defined.

Lemma contains_peak_hours h :
  Py.contains {| start := 9; stop := 18 |} h = in_peak_hours h.
Proof.
  unfold Py.contains, in_peak_hours. simpl.
  destruct (9 <=? h)%Z; simpl; trivial.
  destruct (h <? 18)%Z eqn:H1, (h <=? 17)%Z eqn:H2; trivial;
    [apply Z.ltb_lt in H1; apply Z.leb_gt in H2
    |apply Z.ltb_ge in H1; apply Z.leb_le in H2]; lia.
Qed.

(** C5 (the claim fails here): the analyzer runs at 18:02:00 on a window
    whose last record was written at 17:58:00, within the five minutes
    before; the hour of the run is outside 9..17 and the assessment is a
    peak-hour one all the same. *)
Lemma peak_hour_is_not_from_the_clock :
  let now := at_ 18 2 0 in
  let window := [record (at_ 17 57 55) 0.80 25; record (at_ 17 58 0) 0.80 25] in
  Forall (fun r => now - 5 * 60 <= Row._time r < now)%Z window /\
  in_peak_hours (hour now) = false /\
  exists h,
    analyze_server_health thresholds window (currently 0.80 25) = Ok h /\
    is_peak_hour h = true /\
    health_score h = score thresholds true 0.80 25 /\
    health_score h <> score thresholds false 0.80 25.
Proof.
  intros now window. subst now window.
  split; [repeat (constructor; [unfold at_; simpl; lia|]); constructor|].
  split; [reflexivity|].
  eexists. split; [reflexivity|]. simpl.
  split; [reflexivity|]. split; [reflexivity|].
  intros H. apply (f_equal (fun x => (x <=? 0.75)%float)) in H.
  discriminate H.
Qed.

(** C5 (amended): is_peak_hour is decided by the hour of the timestamp of
    the last record of the window, not by the time at which the analyzer
    runs: it is true exactly when that hour is in 9..17, the score is
    taken from the peak row of the table for these hours and from the
    off-peak row otherwise, so that the row changes at hour 9 (peak) and
    at hour 18 (off-peak) and hour 22 is off-peak. *)
Theorem peak_hour_from_last_record :
  forall data stats r,
    Series.iloc_last data = Ok r ->
    exists h,
      analyze_server_health thresholds data stats = Ok h /\
      (is_peak_hour h = true <-> (9 <= hour (Row._time r) <= 17)%Z) /\
      health_score h =
        score thresholds (in_peak_hours (hour (Row._time r)))
          (current (Stats.upload_speed stats))
          (current (Stats.latency stats)) /\
      (hour (Row._time r) = 8%Z -> is_peak_hour h = false) /\
      (hour (Row._time r) = 9%Z -> is_peak_hour h = true) /\
      (hour (Row._time r) = 17%Z -> is_peak_hour h = true) /\
      (hour (Row._time r) = 18%Z -> is_peak_hour h = false) /\
      (hour (Row._time r) = 22%Z -> is_peak_hour h = false).
Proof.
  intros data stats r Hr.
  assert (Ht : Series.iloc_last (map Row._time data) = Ok (Row._time r))
    by now rewrite iloc_last_map, Hr.
  eexists. split; [apply (analyze_server_health_eq _ _ _ _ Ht)|].
  cbn [is_peak_hour health_score].
  change (peak_hours thresholds) with {| start := 9; stop := 18 |}.
  rewrite contains_peak_hours.
  split.
  { unfold in_peak_hours. rewrite andb_true_iff, !Z.leb_le. tauto. }
  split; [reflexivity|].
  repeat split; intros ->; reflexivity.
Qed.

Lemma peak_hour_from_last_record_witness :
  exists h,
    analyze_server_health thresholds [record (at_ 22 0 0) 0.80 25]
      (currently 0.80 25) = Ok h /\
    is_peak_hour h = false /\
    health_score h = score thresholds false 0.80 25.
Proof.
  destruct (peak_hour_from_last_record [record (at_ 22 0 0) 0.80 25]
              (currently 0.80 25) (record (at_ 22 0 0) 0.80 25) eq_refl)
    as (h & Hh & _ & Hs & _ & _ & _ & _ & H22).
  exists h. split; [exact Hh|].
  split; [apply H22; reflexivity|exact Hs].
Defined.

(** C9: when the range query returns no record, monitor_and_analyze
    returns without writing: the server_analysis series is what it was,
    whatever the store would have answered to a write. *)
Theorem empty_window_writes_nothing :
  forall self t series,
    query t = Ok [] ->
    get_recent_data (query t) = None /\
    monitor_and_analyze self t series = series.
Proof.
  intros self t series Hq.
  unfold monitor_and_analyze. rewrite Hq. split; reflexivity.
Qed.

Lemma empty_window_writes_nothing_witness :
  monitor_and_analyze thresholds (store_up []) [] = [] /\
  main thresholds [store_up []; store_up []] [] = [] /\
  (exists p, monitor_and_analyze thresholds
               (store_up [record (at_ 14 0 0) 0.80 25]) [] = [p]).
Proof.
  split; [|split].
  - apply (empty_window_writes_nothing thresholds (store_up []) []).
    reflexivity.
  - reflexivity.
  - eexists. reflexivity.
Defined.

(** C6: an anomaly is flagged exactly when, for upload_speed or for
    latency, abs(current - avg) > 2 * std; against a std of zero a
    current value that is a number deviates exactly when it differs from
    an avg that is a number, so that any difference is anomalous and
    equality is not; with mean 100 and standard deviation 10, a current
    value of 125 is anomalous and one of 115 is not. *)
Theorem anomaly_rule :
  (forall stats,
      detect_simple_anomalies stats = true <->
      (2 * std_5min (Stats.upload_speed stats)
       <? abs (current (Stats.upload_speed stats)
               - avg_5min (Stats.upload_speed stats)))%float = true \/
      (2 * std_5min (Stats.latency stats)
       <? abs (current (Stats.latency stats)
               - avg_5min (Stats.latency stats)))%float = true) /\
  (forall m,
      (std_5min m =? 0)%float = true ->
      is_nan (current m) = false ->
      is_nan (avg_5min m) = false ->
      deviates m = negb (current m =? avg_5min m)%float) /\
  deviates {| current := 125; avg_5min := 100; std_5min := 10 |} = true /\
  deviates {| current := 115; avg_5min := 100; std_5min := 10 |} = false.
Proof.
  split; [|split; [|split; reflexivity]].
  - intros stats. unfold detect_simple_anomalies. simpl.
    unfold deviates, gtb.
    destruct (2 * std_5min (Stats.upload_speed stats) <? _)%float.
    + split; auto.
    + destruct (2 * std_5min (Stats.latency stats) <? _)%float.
      * split; auto.
      * split; [discriminate|]. intros [H|H]; discriminate.
  - intros m Hs Hc Hm. unfold deviates, gtb.
    now apply abs_sub_gt_zero.
Qed.

Lemma anomaly_rule_witness :
  deviates {| current := 100.5; avg_5min := 100; std_5min := 0 |} = true /\
  deviates {| current := 100; avg_5min := 100; std_5min := 0 |} = false.
Proof.
  split.
  - apply (proj1 (proj2 anomaly_rule)
             {| current := 100.5; avg_5min := 100; std_5min := 0 |});
      reflexivity.
  - apply (proj1 (proj2 anomaly_rule)
             {| current := 100; avg_5min := 100; std_5min := 0 |});
      reflexivity.
Defined.

Lemma chronological_last window r :
  chronological (window ++ [r]) ->
  Forall (fun r' => (Row._time r' <= Row._time r)%Z) (window ++ [r]).
Proof.
  induction window as [|r' window IH]; simpl.
  - intros _. constructor; [lia|constructor].
  - intros [Hall Hc]. constructor; [|auto].
    apply Forall_app in Hall. destruct Hall as [_ Hr].
    now inversion Hr.
Qed.

Lemma calculate_averages_describes s c :
  describes (non_missing s)
    {| current := c; avg_5min := Series.mean s; std_5min := Series.std s |}.
Proof.
  unfold describes. cbn [avg_5min std_5min]. split.
  - destruct (Z.eqb_spec (N (non_missing s)) 0) as [E|E].
    + now apply mean_none.
    + apply mean_arithmetic_mean. unfold N in *. lia.
  - destruct (Z.leb_spec (N (non_missing s)) 1) as [E|E].
    + now apply std_few.
    + apply std_sample_std. lia.
Qed.

(** C7 (the claim fails here): on a window of one record the standard
    deviation of each metric is not a number, where the claim has 0. *)
Lemma std_of_one_record_is_nan :
  exists stats,
    calculate_averages [record (at_ 14 0 0) 0.80 25] = Ok stats /\
    std_5min (Stats.upload_speed stats) = nan /\
    std_5min (Stats.latency stats) = nan /\
    (nan =? 0)%float = false.
Proof. eexists. repeat split. Qed.

(** C7 (amended): on a window that ends with the record r, current is
    the value of the metric on r, which is the chronologically last
    record when the window is in the order of its timestamps; avg is the
    arithmetic mean of the non-missing values, that is a binary64 sum of
    these values, each taken once, divided by their number N; std is
    their sample standard deviation with the divisor N - 1 when there
    are at least two of them, that is the square root of a binary64 sum
    of their squared deviations from avg divided by N - 1, and is not a
    number (rather than 0) when there are fewer than two. *)
Theorem rolling_statistics :
  forall window r,
    let data := window ++ [r] in
    let uploads := non_missing (map Row.upload_speed data) in
    let latencies := non_missing (map Row.latency data) in
    exists stats,
      calculate_averages data = Ok stats /\
      current (Stats.upload_speed stats) = Row.upload_speed r /\
      current (Stats.latency stats) = Row.latency r /\
      describes uploads (Stats.upload_speed stats) /\
      describes latencies (Stats.latency stats) /\
      (chronological data ->
       Forall (fun r' => (Row._time r' <= Row._time r)%Z) data).
Proof.
  intros window r data uploads latencies.
  eexists. split.
  { unfold calculate_averages.
    rewrite !iloc_last_map. unfold data. rewrite iloc_last_app.
    cbn [bind]. reflexivity. }
  cbn [Stats.upload_speed Stats.latency current avg_5min std_5min].
  split; [reflexivity|]. split; [reflexivity|].
  split; [apply calculate_averages_describes|].
  split; [apply calculate_averages_describes|].
  apply chronological_last.
Qed.

Lemma rolling_statistics_witness :
  let data := [record (at_ 14 0 0) 0.1 20;
               record (at_ 14 0 5) 0.2 20;
               record (at_ 14 0 10) 0.30000000000000004 nan;
               record (at_ 14 0 15) 0.4 20;
               record (at_ 14 0 20) 0.5 20;
               record (at_ 14 0 25) 0.6000000000000001 20;
               record (at_ 14 0 30) 0.7000000000000001 20;
               record (at_ 14 0 35) 0.8 21] in
  let uploads := map Row.upload_speed data in
  Forall (fun r' => (Row._time r' <= at_ 14 0 35)%Z) data /\
  exists stats,
    calculate_averages data = Ok stats /\
    current (Stats.upload_speed stats) = 0.8%float /\
    avg_5min (Stats.upload_speed stats) = 0.45%float /\
    arithmetic_mean uploads 0.45 /\
    left_to_right_mean uploads = 0.45000000000000007%float /\
    std_5min (Stats.upload_speed stats) = 0.24494897427831783%float /\
    sample_std uploads 0.24494897427831783 /\
    N (non_missing (map Row.latency data)) = 7%Z.
Proof.
  intros data uploads.
  destruct (rolling_statistics (removelast data) (record (at_ 14 0 35) 0.8 21))
    as (stats & Hs & Hu & _ & [Hm Hd] & _ & Hc).
  split.
  - apply Hc. simpl.
    repeat split; repeat (constructor; [unfold at_; simpl; lia|]);
      constructor.
  - exists stats. split; [exact Hs|].
    assert (E : calculate_averages data =
                Ok {| Stats.upload_speed :=
                        {| current := 0.8; avg_5min := 0.45;
                           std_5min := 0.24494897427831783 |};
                      Stats.latency :=
                        {| current := 21;
                           avg_5min := Series.mean (map Row.latency data);
                           std_5min := Series.std (map Row.latency data) |} |})
      by (vm_compute; reflexivity).
    change (removelast data ++ [record (at_ 14 0 35) 0.8 21]) with data
      in Hs, Hm, Hd.
    rewrite E in Hs. apply Ok_inj in Hs. subst stats.
    split; [reflexivity|]. split; [reflexivity|]. split; [exact Hm|].
    split; [reflexivity|]. split; [reflexivity|]. split; [exact Hd|].
    reflexivity.
Defined.

End PredictorProperties.

(** * Further properties of the collector *)

Section CollectorRunProperties.

Import Collector CollectorSamples CollectorRuns.

Lemma app_one_neq {A} (l : list A) (x : A) : l ++ [x] <> l.
Proof.
  intros H. apply (f_equal (@List.length A)) in H.
  rewrite length_app in H. simpl in H. lia.
Qed.

(** X1: a call of write_to_influxdb changes the series exactly when the
    store accepts the write, none of the four checked fields is below
    zero and the latency is a number; it then appends one point, and in
    every other case (store down, invalid record, latency None or
    missing) it returns with the series as it was. *)
Theorem write_to_influxdb_writes_iff :
  forall client now stats series,
    (write_to_influxdb client now stats series <> series <->
     store_accepts client /\ invalid stats = false /\
     exists l, latency stats = Some (Some l)) /\
    (write_to_influxdb client now stats series = series \/
     exists p, write_to_influxdb client now stats series = series ++ [p] /\
               Point.time p = now).
Proof.
  intros client now stats series. unfold store_accepts.
  unfold write_to_influxdb, getitem_latency.
  destruct (write_api client) as [[]|e]; cbn [bind].
  2:{ split; [|now left]. split; [congruence|]. intros ((H & _) & _). discriminate. }
  destruct (invalid stats); cbn [bind].
  { split; [|now left]. split; [congruence|]. intros (_ & H & _). discriminate. }
  destruct (latency stats) as [[l|]|]; cbn [bind float_].
  - destruct (write client) as [[]|e]; cbn [bind].
    + split; [|right; eexists; split; reflexivity].
      split; [|intros _; apply app_one_neq].
      intros _. repeat split. now exists l.
    + split; [|now left]. split; [congruence|].
      intros ((_ & H) & _). discriminate.
  - split; [|now left]. split; [congruence|].
    intros (_ & _ & l & H). discriminate.
  - split; [|now left]. split; [congruence|].
    intros (_ & _ & l & H). discriminate.
Qed.

Lemma write_to_influxdb_writes_iff_witness :
  write_to_influxdb store_up 1700000000 negative_errors_stats [] <> [] /\
  write_to_influxdb {| write_api := Raise ApiException; write := Ok tt |}
    1700000000 negative_errors_stats [] = [].
Proof.
  split.
  - apply (proj1 (write_to_influxdb_writes_iff store_up 1700000000
                    negative_errors_stats [])).
    split; [split; reflexivity|]. split; [reflexivity|].
    eexists. reflexivity.
  - reflexivity.
Defined.

Lemma iteration_cases t series :
  (sampled t = false /\ iteration t series = Raise TypeError) \/
  (sampled t = true /\
   (iteration t series = Ok series \/
    exists p, iteration t series = Ok (series ++ [p]) /\
              Point.time p = now t)).
Proof.
  unfold iteration, sampled.
  destruct (get_network_stats (first t) (second t)) as [d|]; [right|left];
    cbn [store_latency bind truthy]; split; trivial.
  destruct (write_to_influxdb_cases (client t) (now t)
              (setitem_latency d (get_latency (connect t))) series)
    as [->|(l & _ & _ & ->)]; [now left|right].
  eexists. split; reflexivity.
Qed.

(** X2: the loop of main is left only through a failure of the sampler:
    after any ticks main is still looping exactly when the sampler
    returned a record in each of them, whatever the probe and the store
    did; and when it has left the loop, the exception is the TypeError
    of the assignment to None. *)
Theorem main_exits_only_on_sampler_failure :
  forall ticks series,
    (snd (main ticks series) = Looping <->
     Forall (fun t => sampled t = true) ticks) /\
    (forall e, snd (main ticks series) = Exited e -> e = TypeError).
Proof.
  induction ticks as [|t ticks IH]; intros series; simpl.
  - split; [split; trivial|discriminate].
  - destruct (iteration_cases t series) as [[Hs ->]|[Hs H]].
    + simpl. split; [|congruence].
      split; [discriminate|]. intros H. inversion H. congruence.
    + assert (exists series', iteration t series = Ok series') as [series' ->]
        by (destruct H as [->|(p & -> & _)]; eauto).
      destruct (IH series') as [IH1 IH2]. split; trivial.
      rewrite IH1. split; [now constructor|]. intros H'. now inversion H'.
Qed.

Lemma main_exits_only_on_sampler_failure_witness :
  snd (main [probe_failed_tick; reset_tick; good_tick] []) = Looping.
Proof.
  apply (proj1 (main_exits_only_on_sampler_failure
                  [probe_failed_tick; reset_tick; good_tick] [])).
  repeat constructor.
Defined.

(** X3: main only appends: after any ticks the series is the one it
    started from followed by at most one new point per tick, and every
    new point carries the time of the write of one of the ticks. *)
Theorem main_appends_only :
  forall ticks series,
  exists added,
    fst (main ticks series) = series ++ added /\
    (List.length added <= List.length ticks)%nat /\
    Forall (fun p => exists t, In t ticks /\ Point.time p = now t) added.
Proof.
  induction ticks as [|t ticks IH]; intros series; simpl.
  - exists []. rewrite app_nil_r. repeat split; auto.
  - destruct (iteration_cases t series) as [[_ ->]|[_ [->|(p & -> & Hp)]]].
    + exists []. rewrite app_nil_r. simpl. repeat split; auto. lia.
    + destruct (IH series) as (added & -> & Hl & Ha).
      exists added. repeat split; [lia|].
      eapply Forall_impl; [|exact Ha].
      intros q (t' & Hin & Hq). exists t'. split; [now right|trivial].
    + destruct (IH (series ++ [p])) as (added & -> & Hl & Ha).
      exists (p :: added). rewrite <- app_assoc. repeat split; [simpl; lia|].
      constructor; [exists t; split; [now left|trivial]|].
      eapply Forall_impl; [|exact Ha].
      intros q (t' & Hin & Hq). exists t'. split; [now right|trivial].
Qed.

Lemma counter_delta a b : counter a -> counter b -> (Z.abs ((b - a) * 8) < 2 ^ 1023)%Z.
Proof.
  unfold counter. intros Ha Hb.
  assert ((2 ^ 64 * 8 < 2 ^ 1023)%Z) by reflexivity. lia.
Qed.

(** X4: a tick whose two reads succeed with 64-bit counters, whose byte
    counters did not go down and whose packet totals are not negative,
    whose probe connects and whose write the store accepts, adds exactly
    one point: it carries the two rates of the sampler, the packet and
    error totals of the second read (not their increase over the first),
    the latency of the probe in milliseconds and the time of the
    write. *)
Theorem healthy_tick_persists_one_point :
  forall t c c' start_time end_time series,
    first t = Ok c -> second t = Ok c' ->
    counter (psutil.bytes_sent c) -> counter (psutil.bytes_sent c') ->
    counter (psutil.bytes_recv c) -> counter (psutil.bytes_recv c') ->
    (psutil.bytes_sent c <= psutil.bytes_sent c')%Z ->
    (psutil.bytes_recv c <= psutil.bytes_recv c')%Z ->
    (0 <= psutil.packets_sent c')%Z -> (0 <= psutil.packets_recv c')%Z ->
    connect t = Connected start_time end_time ->
    store_accepts (client t) ->
    exists upload download,
      truediv ((psutil.bytes_sent c' - psutil.bytes_sent c) * 8) 1000000
        = Ok upload /\
      truediv ((psutil.bytes_recv c' - psutil.bytes_recv c) * 8) 1000000
        = Ok download /\
      iteration t series =
        Ok (series ++
            [{| Point.download_speed := download;
                Point.upload_speed := upload;
                Point.packets_sent := psutil.packets_sent c';
                Point.packets_recv := psutil.packets_recv c';
                Point.errors_in := psutil.errin c';
                Point.errors_out := psutil.errout c';
                Point.latency := ((end_time - start_time) * 1000)%float;
                Point.time := now t |}]).
Proof.
  intros t c c' start_time end_time series H1 H2 Cs Cs' Cr Cr' Hs Hr Hps Hpr
    Hc [Ha Hw].
  destruct (truediv_defined
              ((psutil.bytes_sent c' - psutil.bytes_sent c) * 8) 1000000)
    as [u Hu]; [lia|now apply counter_delta|].
  destruct (truediv_defined
              ((psutil.bytes_recv c' - psutil.bytes_recv c) * 8) 1000000)
    as [v Hv]; [lia|now apply counter_delta|].
  exists u, v. split; [trivial|]. split; [trivial|].
  assert (Hu0 : (u <? 0)%float = false).
  { apply leb_zero_ltb. eapply truediv_nonneg; [| |exact Hu]; lia. }
  assert (Hv0 : (v <? 0)%float = false).
  { apply leb_zero_ltb. eapply truediv_nonneg; [| |exact Hv]; lia. }
  unfold iteration, get_network_stats. rewrite H1, H2. cbn [bind].
  rewrite Hu, Hv, Hc. cbn [bind store_latency truthy get_latency].
  unfold write_to_influxdb, getitem_latency, invalid. rewrite Ha, Hw.
  cbn [bind setitem_latency download_speed upload_speed packets_sent
         packets_recv errors_in errors_out latency float_].
  rewrite Hu0, Hv0.
  apply Z.ltb_ge in Hps, Hpr. rewrite Hps, Hpr. reflexivity.
Qed.

Lemma healthy_tick_persists_one_point_witness :
  exists p,
    iteration good_tick [] = Ok [p] /\
    Point.upload_speed p = 2%float /\ Point.download_speed p = 6%float /\
    Point.packets_sent p = 4000%Z.
Proof.
  destruct (healthy_tick_persists_one_point good_tick
              (counters 5000000 9000000) (counters 5250000 9750000)
              100 100.012 [])
    as (u & v & Hu & Hv & Hit);
    try reflexivity; try (unfold counter; simpl; lia); try (simpl; lia).
  { split; reflexivity. }
  eexists. split; [exact Hit|].
  apply Ok_inj in Hu. apply Ok_inj in Hv. subst u v. repeat split.
Defined.

(** X5: a tick in which a byte counter went down between the two reads
    (a counter reset) persists nothing, whatever the probe and the store
    do, and the loop goes on: the negative rate that the sampler
    computes from it is below zero and stops the writer. *)
Theorem counter_reset_tick_is_dropped :
  forall t c c' ticks series,
    first t = Ok c -> second t = Ok c' ->
    counter (psutil.bytes_sent c) -> counter (psutil.bytes_sent c') ->
    counter (psutil.bytes_recv c) -> counter (psutil.bytes_recv c') ->
    (psutil.bytes_sent c' < psutil.bytes_sent c)%Z \/
    (psutil.bytes_recv c' < psutil.bytes_recv c)%Z ->
    iteration t series = Ok series /\
    main (t :: ticks) series = main ticks series.
Proof.
  intros t c c' ticks series H1 H2 Cs Cs' Cr Cr' Hreset.
  destruct (truediv_defined
              ((psutil.bytes_sent c' - psutil.bytes_sent c) * 8) 1000000)
    as [u Hu]; [lia|now apply counter_delta|].
  destruct (truediv_defined
              ((psutil.bytes_recv c' - psutil.bytes_recv c) * 8) 1000000)
    as [v Hv]; [lia|now apply counter_delta|].
  assert (Hneg : (v <? 0)%float || (u <? 0)%float = true).
  { assert ((0 < 1000000 < 2 ^ 1000)%Z) by (split; reflexivity).
    destruct Hreset as [Hlt|Hlt].
    - assert (Hu0 : (u <? 0)%float = true)
        by (eapply truediv_negative; [| |exact Hu]; lia).
      rewrite Hu0. apply orb_true_r.
    - assert (Hv0 : (v <? 0)%float = true)
        by (eapply truediv_negative; [| |exact Hv]; lia).
      now rewrite Hv0. }
  assert (Hit : iteration t series = Ok series).
  { unfold iteration, get_network_stats. rewrite H1, H2. cbn [bind].
    rewrite Hu, Hv. cbn [bind store_latency truthy].
    unfold write_to_influxdb.
    destruct (write_api (client t)) as [[]|]; cbn [bind]; trivial.
    unfold invalid.
    cbn [setitem_latency download_speed upload_speed].
    now rewrite Hneg. }
  split; trivial. simpl. now rewrite Hit.
Qed.

Lemma counter_reset_tick_is_dropped_witness :
  iteration reset_tick [] = Ok [] /\
  main [reset_tick; good_tick] [] = main [good_tick] [].
Proof.
  apply (counter_reset_tick_is_dropped reset_tick
           (counters 5000000 9000000) (counters 1000 2000) [good_tick] []);
    try reflexivity; try (unfold counter; simpl; lia).
Defined.

(** X6: when the probe connects and the second reading of the clock is
    not before the first (both finite), the latency that get_latency
    returns is at or above zero. *)
Theorem get_latency_nonneg :
  forall start_time end_time,
    is_finite start_time = true -> is_finite end_time = true ->
    (start_time <=? end_time)%float = true ->
    exists l,
      get_latency (Connected start_time end_time) = Some l /\
      (0 <=? l)%float = true /\ (l <? 0)%float = false.
Proof.
  intros s e Fs Fe Hle. eexists. split; [reflexivity|].
  pose proof (elapsed_ms_nonneg s e Fs Fe Hle) as H.
  split; [exact H|now apply leb_zero_ltb].
Qed.

Lemma get_latency_nonneg_witness :
  exists l,
    get_latency (Connected 100 100.012) = Some l /\
    (0 <=? l)%float = true /\ (l <? 0)%float = false.
Proof.
  apply (get_latency_nonneg 100 100.012); reflexivity.
Defined.

(** X16: for 64-bit counters the sampler returns None exactly when one
    of the two reads of the counters raises; the record it returns
    otherwise has no latency yet and carries the packet and error
    totals of the second read. *)
Theorem sampler_fails_only_with_the_read :
  forall first second,
    (forall c, first = Ok c ->
               counter (psutil.bytes_sent c) /\ counter (psutil.bytes_recv c)) ->
    (forall c, second = Ok c ->
               counter (psutil.bytes_sent c) /\ counter (psutil.bytes_recv c)) ->
    (get_network_stats first second = None <->
     (exists e, first = Raise e) \/ (exists e, second = Raise e)) /\
    (forall d c',
        get_network_stats first second = Some d -> second = Ok c' ->
        packets_sent d = psutil.packets_sent c' /\
        packets_recv d = psutil.packets_recv c' /\
        errors_in d = psutil.errin c' /\
        errors_out d = psutil.errout c' /\
        latency d = None).
Proof.
  intros first second H1 H2. unfold get_network_stats.
  destruct first as [c|e1]; cbn [bind].
  2:{ split; [|discriminate]. split; eauto. }
  destruct second as [c'|e2]; cbn [bind].
  2:{ split; [|discriminate]. split; eauto. }
  destruct (H1 c eq_refl) as [Cs Cr]. destruct (H2 c' eq_refl) as [Cs' Cr'].
  destruct (truediv_defined
              ((psutil.bytes_sent c' - psutil.bytes_sent c) * 8) 1000000)
    as [u ->]; [lia|now apply counter_delta|].
  destruct (truediv_defined
              ((psutil.bytes_recv c' - psutil.bytes_recv c) * 8) 1000000)
    as [v ->]; [lia|now apply counter_delta|].
  cbn [bind]. split.
  - split; [discriminate|]. intros [[e H]|[e H]]; discriminate.
  - intros d c'' Hd Hc. injection Hd as <-. apply Ok_inj in Hc. subst c''.
    repeat split.
Qed.

Lemma sampler_fails_only_with_the_read_witness :
  get_network_stats (Ok (counters 5000000 9000000)) (Raise OSError) = None.
Proof.
  apply (proj1 (sampler_fails_only_with_the_read
                  (Ok (counters 5000000 9000000)) (Raise OSError)
                  ltac:(intros c H; apply Ok_inj in H; subst c;
                        unfold counter; simpl; lia)
                  ltac:(intros c H; discriminate H))).
  right. exists OSError. reflexivity.
Defined.

(** X17: the sign of each rate is the sign of the change of its byte
    counter between the two reads: above zero when the counter went up,
    zero when it stayed, below zero when it went down. *)
Theorem rate_has_the_sign_of_the_change :
  forall c c' d,
    get_network_stats (Ok c) (Ok c') = Some d ->
    ((psutil.bytes_sent c < psutil.bytes_sent c')%Z ->
     (0 <? upload_speed d)%float = true) /\
    (psutil.bytes_sent c = psutil.bytes_sent c' -> upload_speed d = 0%float) /\
    ((psutil.bytes_sent c' < psutil.bytes_sent c)%Z ->
     (upload_speed d <? 0)%float = true) /\
    ((psutil.bytes_recv c < psutil.bytes_recv c')%Z ->
     (0 <? download_speed d)%float = true) /\
    (psutil.bytes_recv c = psutil.bytes_recv c' -> download_speed d = 0%float) /\
    ((psutil.bytes_recv c' < psutil.bytes_recv c)%Z ->
     (download_speed d <? 0)%float = true).
Proof.
  intros c c' d. unfold get_network_stats. cbn [bind].
  destruct (truediv ((psutil.bytes_sent c' - psutil.bytes_sent c) * 8) 1000000)
    as [u|] eqn:Eu; cbn [bind]; [|discriminate].
  destruct (truediv ((psutil.bytes_recv c' - psutil.bytes_recv c) * 8) 1000000)
    as [v|] eqn:Ev; cbn [bind]; [|discriminate].
  intros H. injection H as <-. cbn [upload_speed download_speed].
  assert (B : (0 < 1000000 < 2 ^ 1000)%Z) by (split; reflexivity).
  repeat split; intros H.
  - eapply truediv_positive; [| |exact Eu]; lia.
  - rewrite H, Z.sub_diag in Eu. now apply Ok_inj in Eu.
  - eapply truediv_negative; [| |exact Eu]; lia.
  - eapply truediv_positive; [| |exact Ev]; lia.
  - rewrite H, Z.sub_diag in Ev. now apply Ok_inj in Ev.
  - eapply truediv_negative; [| |exact Ev]; lia.
Qed.

Lemma rate_has_the_sign_of_the_change_witness :
  exists d,
    get_network_stats (first reset_tick) (second reset_tick) = Some d /\
    (upload_speed d <? 0)%float = true /\
    (download_speed d <? 0)%float = true.
Proof.
  eexists. split; [reflexivity|].
  destruct (rate_has_the_sign_of_the_change
              (counters 5000000 9000000) (counters 1000 2000) _ eq_refl)
    as (_ & _ & Hu & _ & _ & Hd).
  split; [apply Hu|apply Hd]; simpl; lia.
Defined.

Lemma write_to_influxdb_guard client now stats series :
  Forall passed_the_guard series ->
  Forall passed_the_guard (write_to_influxdb client now stats series).
Proof.
  intros Hs.
  destruct (write_to_influxdb_cases client now stats series)
    as [-> | (l & Hinv & _ & ->)]; trivial.
  apply Forall_app; split; trivial.
  constructor; [|constructor].
  apply invalid_false in Hinv. destruct Hinv as (Hd & Hu & Hp & Hr).
  apply Z.ltb_ge in Hp, Hr. repeat split; trivial.
Qed.

(** X18: every point that a run of the collector adds has passed the
    whole guard of the writer: its two rates are not below zero and its
    two packet totals are not negative. *)
Theorem main_keeps_the_guard :
  forall ticks series,
    Forall passed_the_guard series ->
    Forall passed_the_guard (fst (main ticks series)).
Proof.
  induction ticks as [|t ticks IH]; intros series Hs; simpl; trivial.
  unfold iteration.
  destruct (store_latency _ _) as [d|e]; cbn [bind truthy]; trivial.
  apply IH. now apply write_to_influxdb_guard.
Qed.

Lemma main_keeps_the_guard_witness :
  Forall passed_the_guard
    (fst (main [good_tick; reset_tick; probe_failed_tick; good_tick] [])).
Proof.
  apply (main_keeps_the_guard
           [good_tick; reset_tick; probe_failed_tick; good_tick] []).
  constructor.
Defined.

Lemma in_order_app times t :
  in_order times -> Forall (fun t' => (t' <= t)%Z) times ->
  in_order (times ++ [t]).
Proof.
  induction times as [|x times IH]; simpl.
  - intros _ _. split; [constructor|trivial].
  - intros [Hx Ho] Ha. inversion Ha; subst. split; [|auto].
    apply Forall_app. split; trivial. now constructor.
Qed.

Lemma main_in_order ticks : forall series,
  in_order (map now ticks) ->
  in_order (map Point.time series) ->
  Forall (fun x => Forall (fun t => (x <= now t)%Z) ticks)
    (map Point.time series) ->
  in_order (map Point.time (fst (main ticks series))).
Proof.
  induction ticks as [|t ticks IH]; intros series Ht Hs Hb; simpl; trivial.
  destruct Ht as [Ht1 Ht2].
  assert (Hb' : Forall (fun x => Forall (fun t => (x <= now t)%Z) ticks)
                  (map Point.time series)).
  { eapply Forall_impl; [|exact Hb]. intros x Hx. now inversion Hx. }
  destruct (iteration_cases t series) as [[_ ->]|[_ [->|(p & -> & Hp)]]];
    simpl; auto.
  apply IH; trivial.
  - rewrite map_app. simpl. apply in_order_app; trivial.
    rewrite Hp. eapply Forall_impl; [|exact Hb].
    intros x Hx. now inversion Hx.
  - rewrite map_app. apply Forall_app. split; trivial.
    constructor; [|constructor]. rewrite Hp.
    apply Forall_forall. intros t' Hin.
    rewrite Forall_forall in Ht1. apply Ht1. now apply in_map.
Qed.

(** X19: when the clock of the writes does not go back from one tick to
    the next, the series that a run builds from nothing is in the order
    of its timestamps, whichever ticks were dropped on the way. *)
Theorem series_is_in_timestamp_order :
  forall ticks,
    in_order (map now ticks) ->
    in_order (map Point.time (fst (main ticks []))).
Proof.
  intros ticks H. apply main_in_order; simpl; trivial.
Qed.

Lemma series_is_in_timestamp_order_witness :
  in_order (map Point.time
              (fst (main [probe_failed_tick; good_tick] []))).
Proof.
  apply (series_is_in_timestamp_order [probe_failed_tick; good_tick]).
  simpl. repeat split; repeat constructor; lia.
Defined.

End CollectorRunProperties.

(** * Further properties of the monitor *)

Section AssessmentProperties.

Import Predictor HealthSpec StatsSpec PredictorSamples AssessmentSpec.

(** What [analyze_server_health] returns on a window that ends at time
    [t], by the tiers of the two current values. *)
Lemma analyze_server_health_table self data stats t :
  Series.iloc_last (map Row._time data) = Ok t ->
  exists h,
    analyze_server_health self data stats = Ok h /\
    is_peak_hour h = Py.contains (peak_hours self) (hour t) /\
    status h =
      status_table
        (upload_tier (cutoffs (is_peak_hour h) (upload self))
           (current (Stats.upload_speed stats)))
        (latency_tier (cutoffs (is_peak_hour h) (latency self))
           (current (Stats.latency stats))) /\
    (0 <=? health_score h)%float = true /\
    (health_score h <=? 1)%float = true.
Proof.
  intros Ht. unfold analyze_server_health. rewrite Ht. cbn [bind].
  eexists. split; [reflexivity|].
  cbn [is_peak_hour status health_score].
  split; [reflexivity|].
  unfold upload_tier, latency_tier, cutoffs.
  destruct (Py.contains (peak_hours self) (hour t));
    repeat match goal with
           | |- context [geb (current ?m) ?c] => destruct (geb (current m) c)
           | |- context [(current ?m <=? ?c)%float] =>
               destruct (current m <=? c)%float
           end; repeat split.
Qed.

(** X7: on every non-empty window the status is read off a fixed table
    of the tiers of the current upload and the current latency (optimal
    latency with an upload at or above the warning cutoff is optimal;
    a latency beyond the warning cutoff is warning with an optimal
    upload and critical otherwise, and so on), and the health score lies
    between 0 and 1; a current value that is not a number falls in the
    last tier. *)
Theorem status_follows_tier_table :
  forall self data stats,
    data <> [] ->
    exists h,
      analyze_server_health self data stats = Ok h /\
      status h =
        status_table
          (upload_tier (cutoffs (is_peak_hour h) (upload self))
             (current (Stats.upload_speed stats)))
          (latency_tier (cutoffs (is_peak_hour h) (latency self))
             (current (Stats.latency stats))) /\
      In (status h) labels /\
      (0 <=? health_score h)%float = true /\
      (health_score h <=? 1)%float = true /\
      (forall c, is_nan (current (Stats.upload_speed stats)) = true ->
                 upload_tier c (current (Stats.upload_speed stats)) = Beyond) /\
      (forall c, is_nan (current (Stats.latency stats)) = true ->
                 latency_tier c (current (Stats.latency stats)) = Beyond).
Proof.
  intros self data stats Hne.
  destruct (iloc_last_nonempty (map Row._time data)) as [t Ht].
  { destruct data; [contradiction|discriminate]. }
  destruct (analyze_server_health_table self data stats t Ht)
    as (h & Hh & _ & Hs & H0 & H1).
  exists h. split; [trivial|]. split; [trivial|].
  split.
  { rewrite Hs. unfold labels.
    destruct (upload_tier _ _), (latency_tier _ _); simpl; auto. }
  split; [trivial|]. split; [trivial|].
  split; intros c Hn.
  - unfold upload_tier, geb.
    destruct (compare_nan _ (optimal c) Hn) as (_ & _ & _ & -> & _).
    now destruct (compare_nan _ (warning c) Hn) as (_ & _ & _ & -> & _).
  - unfold latency_tier.
    destruct (compare_nan _ (optimal c) Hn) as (_ & _ & -> & _ & _).
    now destruct (compare_nan _ (warning c) Hn) as (_ & _ & -> & _ & _).
Qed.

Lemma status_follows_tier_table_witness :
  exists h,
    analyze_server_health thresholds [record (at_ 14 0 0) 0.6 nan]
      (currently 0.6 nan) = Ok h /\
    status h = "critical"%string.
Proof.
  destruct (status_follows_tier_table thresholds
              [record (at_ 14 0 0) 0.6 nan] (currently 0.6 nan))
    as (h & Hh & Hs & _ & _ & _ & _ & Hl); [discriminate|].
  exists h. split; [exact Hh|].
  rewrite Hs, Hl by reflexivity.
  apply Ok_inj in Hh. subst h. reflexivity.
Defined.

(** X8: the critical cutoffs of the table are never read: two tables
    with the same peak hours and the same optimal and warning cutoffs
    give the same assessment on every window. *)
Theorem critical_cutoffs_are_unused :
  forall self self' data stats,
    same_but_critical_table self self' ->
    analyze_server_health self data stats
    = analyze_server_health self' data stats.
Proof.
  intros self self' data stats (Hp & [U1 U2] & [U3 U4] & [L1 L2] & [L3 L4]).
  unfold analyze_server_health. rewrite Hp.
  destruct (Series.iloc_last (map Row._time data)) as [t|e]; cbn [bind]; trivial.
  destruct (Py.contains (peak_hours self') (hour t));
    rewrite ?U1, ?U2, ?U3, ?U4, ?L1, ?L2, ?L3, ?L4; reflexivity.
Qed.

Lemma critical_cutoffs_are_unused_witness :
  let self' :=
    {| peak_hours := peak_hours thresholds;
       upload :=
         {| peak := {| optimal := 0.75; warning := 0.50; critical := 0 |};
            off_peak := {| optimal := 0.85; warning := 0.60; critical := 0 |} |};
       latency :=
         {| peak := {| optimal := 30; warning := 50; critical := 0 |};
            off_peak := {| optimal := 20; warning := 40; critical := 0 |} |} |} in
  analyze_server_health thresholds [record (at_ 14 0 0) 0.1 120]
    (currently 0.1 120)
  = analyze_server_health self' [record (at_ 14 0 0) 0.1 120]
      (currently 0.1 120).
Proof.
  intros self'.
  apply (critical_cutoffs_are_unused thresholds self').
  repeat split.
Defined.

Lemma hour_later t k : hour (t + 86400 * k) = hour t.
Proof.
  unfold hour.
  replace (t + 86400 * k)%Z with (t + (24 * k) * 3600)%Z by lia.
  rewrite Z.div_add by lia.
  replace (t / 3600 + 24 * k)%Z with (t / 3600 + k * 24)%Z by lia.
  apply Z.mod_add. lia.
Qed.

Lemma hour_range t : (0 <= hour t < 24)%Z.
Proof. unfold hour. apply Z.mod_pos_bound. lia. Qed.

(** X9: the hour that decides the period is the hour of the day of the
    timestamp, between 0 and 23 also for timestamps before the epoch,
    so that the assessment of a window is the same a whole number of
    days later or earlier. *)
Theorem assessment_depends_on_time_of_day :
  forall self data stats days,
    analyze_server_health self (map (later (86400 * days)) data) stats
    = analyze_server_health self data stats /\
    forall r, (0 <= hour (Row._time r) < 24)%Z.
Proof.
  intros self data stats days. split; [|intros r; apply hour_range].
  unfold analyze_server_health.
  rewrite map_map. cbn [later Row._time].
  rewrite <- (map_map Row._time (fun t => (t + 86400 * days)%Z)).
  rewrite iloc_last_map.
  destruct (Series.iloc_last (map Row._time data)) as [t|e]; cbn [bind]; trivial.
  now rewrite hour_later.
Qed.

Lemma std_not_negative s : (Series.std s <? 0)%float = false.
Proof.
  unfold Series.std. cbv zeta. destruct (_ <=? _)%Z; [reflexivity|].
  apply sqrt_not_negative.
Qed.

Lemma for_two_metrics u l :
  for_metrics [u; l] = deviates u || deviates l.
Proof. simpl. now destruct (deviates u), (deviates l). Qed.

(** X10: the standard deviations that calculate_averages returns are
    never below zero, and a window whose current values equal their
    means is never flagged as an anomaly, whatever the deviations
    are. *)
Theorem no_anomaly_at_the_mean :
  forall data stats,
    calculate_averages data = Ok stats ->
    (std_5min (Stats.upload_speed stats) <? 0)%float = false /\
    (std_5min (Stats.latency stats) <? 0)%float = false /\
    ((current (Stats.upload_speed stats)
      =? avg_5min (Stats.upload_speed stats))%float = true ->
     (current (Stats.latency stats)
      =? avg_5min (Stats.latency stats))%float = true ->
     detect_simple_anomalies stats = false).
Proof.
  intros data stats. unfold calculate_averages.
  destruct (Series.iloc_last (map Row.upload_speed data)) as [cu|];
    cbn [bind]; [|discriminate].
  destruct (Series.iloc_last (map Row.latency data)) as [cl|];
    cbn [bind]; [|discriminate].
  intros H. apply Ok_inj in H. subst stats.
  cbn [Stats.upload_speed Stats.latency std_5min current avg_5min].
  split; [apply std_not_negative|]. split; [apply std_not_negative|].
  intros Hu Hl. unfold detect_simple_anomalies.
  rewrite for_two_metrics. unfold deviates, gtb.
  cbn [Stats.upload_speed Stats.latency std_5min current avg_5min].
  rewrite !abs_sub_not_gt by auto using std_not_negative. reflexivity.
Qed.

Lemma no_anomaly_at_the_mean_witness :
  exists stats,
    calculate_averages [record (at_ 14 0 0) 4 20; record (at_ 14 0 5) 8 30;
                        record (at_ 14 0 10) 6 25] = Ok stats /\
    detect_simple_anomalies stats = false.
Proof.
  eexists. split; [reflexivity|].
  eapply (no_anomaly_at_the_mean
            [record (at_ 14 0 0) 4 20; record (at_ 14 0 5) 8 30;
             record (at_ 14 0 10) 6 25]); reflexivity.
Defined.

(** X11: a window with at most one value that is not missing for each
    metric, such as any window of a single record, is never flagged as
    an anomaly: the standard deviation is not a number there and the
    comparison with it is false. *)
Theorem few_values_never_anomalous :
  forall data stats,
    calculate_averages data = Ok stats ->
    (N (non_missing (map Row.upload_speed data)) <= 1)%Z ->
    (N (non_missing (map Row.latency data)) <= 1)%Z ->
    detect_simple_anomalies stats = false.
Proof.
  intros data stats. unfold calculate_averages.
  destruct (Series.iloc_last (map Row.upload_speed data)) as [cu|];
    cbn [bind]; [|discriminate].
  destruct (Series.iloc_last (map Row.latency data)) as [cl|];
    cbn [bind]; [|discriminate].
  intros H Hu Hl. apply Ok_inj in H. subst stats.
  unfold detect_simple_anomalies. rewrite for_two_metrics.
  unfold deviates, gtb.
  cbn [Stats.upload_speed Stats.latency std_5min current avg_5min].
  rewrite !std_few by assumption.
  rewrite !nan_not_lt by reflexivity. reflexivity.
Qed.

Lemma few_values_never_anomalous_witness :
  exists stats,
    calculate_averages [record (at_ 14 0 0) 0.01 900] = Ok stats /\
    detect_simple_anomalies stats = false.
Proof.
  eexists. split; [reflexivity|].
  eapply (few_values_never_anomalous [record (at_ 14 0 0) 0.01 900]);
    [reflexivity| |]; vm_compute; discriminate.
Defined.

Lemma calculate_averages_last window r :
  exists stats,
    calculate_averages (window ++ [r]) = Ok stats /\
    current (Stats.upload_speed stats) = Row.upload_speed r /\
    current (Stats.latency stats) = Row.latency r.
Proof.
  unfold calculate_averages.
  rewrite !iloc_last_map, iloc_last_app. cbn [bind].
  eexists. repeat split.
Qed.

Lemma nonempty_last {A} (l : list A) :
  l <> [] -> exists l' x, l = l' ++ [x].
Proof.
  intros H. destruct (exists_last H) as (l' & x & ->). eauto.
Qed.

(** X12: the health assessment looks at the last record only: two
    windows that end with the same record get the same status, score
    and period, whatever the records before it and the statistics over
    them are. *)
Theorem health_ignores_history :
  forall self window window' r stats stats',
    calculate_averages (window ++ [r]) = Ok stats ->
    calculate_averages (window' ++ [r]) = Ok stats' ->
    analyze_server_health self (window ++ [r]) stats
    = analyze_server_health self (window' ++ [r]) stats'.
Proof.
  intros self window window' r stats stats' Hs Hs'.
  destruct (calculate_averages_last window r) as (s & E & Hu & Hl).
  destruct (calculate_averages_last window' r) as (s' & E' & Hu' & Hl').
  assert (stats = s) by congruence. assert (stats' = s') by congruence.
  subst s s'.
  unfold analyze_server_health.
  rewrite !iloc_last_map, !iloc_last_app. cbn [bind].
  now rewrite Hu, Hl, Hu', Hl'.
Qed.

Lemma health_ignores_history_witness :
  exists stats stats',
    calculate_averages [record (at_ 13 59 55) 0.1 400;
                        record (at_ 14 0 0) 0.80 25] = Ok stats /\
    calculate_averages [record (at_ 14 0 0) 0.80 25] = Ok stats' /\
    analyze_server_health thresholds
      [record (at_ 13 59 55) 0.1 400; record (at_ 14 0 0) 0.80 25] stats
    = analyze_server_health thresholds [record (at_ 14 0 0) 0.80 25] stats'.
Proof.
  eexists. eexists. split; [reflexivity|]. split; [reflexivity|].
  apply (health_ignores_history thresholds
           [record (at_ 13 59 55) 0.1 400] [] (record (at_ 14 0 0) 0.80 25));
    reflexivity.
Defined.

(** What a call of [monitor_and_analyze] does, by the tick. *)
Lemma monitor_and_analyze_cases self t series :
  (productive t = false /\ monitor_and_analyze self t series = series) \/
  (productive t = true /\
   exists window r p,
     query t = Ok (window ++ [r]) /\
     monitor_and_analyze self t series = series ++ [p] /\
     Point.current_upload p = Row.upload_speed r /\
     Point.current_latency p = Row.latency r /\
     well_formed p).
Proof.
  unfold monitor_and_analyze, productive, get_recent_data.
  destruct (query t) as [[|r0 w]|e]; cbn [empty bind]; auto.
  destruct (nonempty_last (r0 :: w)) as (window & r & Hw); [discriminate|].
  rewrite Hw.
  destruct (calculate_averages_last window r) as (stats & -> & Hu & Hl).
  cbn [bind].
  destruct (analyze_server_health_table self (window ++ [r]) stats
              (Row._time r)) as (h & -> & Hp & Hst & H0 & H1).
  { now rewrite iloc_last_map, iloc_last_app. }
  cbn [bind].
  destruct (write t) as [u|e]; cbn [bind]; [right|left; auto].
  split; trivial. exists window, r. eexists.
  split; [reflexivity|]. split; [reflexivity|].
  cbn [Point.current_upload Point.current_latency].
  split; [trivial|]. split; [trivial|].
  unfold well_formed.
  cbn [Point.is_anomaly Point.is_peak_hour Point.health_status
         Point.health_score].
  split; [destruct (detect_simple_anomalies stats); simpl; auto|].
  split; [destruct (is_peak_hour h); simpl; auto|].
  split; [|auto].
  rewrite Hst. unfold labels.
  destruct (upload_tier _ _), (latency_tier _ _); simpl; auto.
Qed.

(** X13: a call of monitor_and_analyze appends one assessment exactly
    when the query returns a window with records and the store accepts
    the write, and leaves the series as it was otherwise (empty window,
    query or write failure); the assessment it appends carries the
    values of the last record of the window as current values, flags
    that are 0 or 1, one of the four status labels and a score between
    0 and 1. *)
Theorem monitor_writes_well_formed_assessment :
  forall self t series,
    (productive t = true ->
     exists window r p,
       query t = Ok (window ++ [r]) /\
       monitor_and_analyze self t series = series ++ [p] /\
       Point.current_upload p = Row.upload_speed r /\
       Point.current_latency p = Row.latency r /\
       well_formed p) /\
    (productive t = false -> monitor_and_analyze self t series = series).
Proof.
  intros self t series.
  destruct (monitor_and_analyze_cases self t series) as [[Hp H]|[Hp H]];
    split; intros Hp'; try congruence; trivial.
Qed.

Lemma monitor_writes_well_formed_assessment_witness :
  (exists p,
     monitor_and_analyze thresholds
       (store_up [record (at_ 14 0 0) 0.80 25; record (at_ 14 0 5) 0.40 90])
       [] = [p] /\
     Point.current_upload p = 0.40%float /\ well_formed p) /\
  monitor_and_analyze thresholds
    {| query := Ok [record (at_ 14 0 0) 0.80 25];
       write := Raise ApiException |} [] = [].
Proof.
  split.
  - destruct (proj1 (monitor_writes_well_formed_assessment thresholds
                       (store_up [record (at_ 14 0 0) 0.80 25;
                                  record (at_ 14 0 5) 0.40 90]) [])
                eq_refl)
      as (window & r & p & Hq & Hm & Hu & _ & Hw).
    exists p. split; [exact Hm|]. split; [|exact Hw].
    rewrite Hu.
    change (Ok [record (at_ 14 0 0) 0.80 25; record (at_ 14 0 5) 0.40 90]
            = Ok (window ++ [r])) in Hq.
    apply Ok_inj in Hq.
    change ([record (at_ 14 0 0) 0.80 25] ++ [record (at_ 14 0 5) 0.40 90]
            = window ++ [r]) in Hq.
    apply app_inj_tail in Hq. destruct Hq as [_ <-]. reflexivity.
  - apply (proj2 (monitor_writes_well_formed_assessment thresholds
                    {| query := Ok [record (at_ 14 0 0) 0.80 25];
                       write := Raise ApiException |} [])).
    reflexivity.
Defined.

(** X14: the loop of the monitor only appends, and after any ticks the
    series has grown by one assessment for each tick that read a window
    with records and whose write the store accepted; every assessment
    it added is well formed. *)
Theorem monitor_main_appends_only :
  forall self ticks series,
  exists added,
    main self ticks series = series ++ added /\
    List.length added = List.length (filter productive ticks) /\
    Forall well_formed added.
Proof.
  intros self. induction ticks as [|t ticks IH]; intros series; simpl.
  - exists []. rewrite app_nil_r. repeat split. constructor.
  - destruct (monitor_and_analyze_cases self t series)
      as [[-> ->]|[-> (window & r & p & _ & -> & _ & _ & Hw)]].
    + apply IH.
    + destruct (IH (series ++ [p])) as (added & -> & Hl & Ha).
      exists (p :: added). rewrite <- app_assoc.
      repeat split; [simpl; now rewrite Hl|now constructor].
Qed.

End AssessmentProperties.
